(** * Pegasus Skin Editor: the region editing engine of [ui.py]

    A shallow embedding of the two classes of [ui.py], [Region] and
    [Representation], and the properties of the editing engine proved
    over it.

    Python objects that are shared and mutated (the margin dictionaries,
    the [Region] objects held by the registry and by the selection) live
    in an explicit store; every method is a computation over the whole
    editor state that either returns or raises, and the mutations made
    before an exception is raised stay in the state, as in Python. *)

From stdpp Require Import base option list gmap strings pretty.
From Stdlib Require Import ZArith Ascii.
From Stdlib Require String.

Local Open Scope string_scope.
Local Open Scope Z_scope.
Local Open Scope list_scope.

(** ** Python exceptions

    [ReferenceError] stands for the use of a reference to no object,
    which Python rules out; the store of the model must answer it. *)

Inductive exn : Type :=
| KeyError (key : string)
| AttributeError (msg : string)
| TypeError (msg : string)
| IndexError
| StopIteration
| TclError
| PDFPageCountError
| OSError
| ReferenceError
| ValueError
| SystemExit (msg : string).

Inductive outcome (A : Type) : Type :=
| Returns (a : A)
| Raises (e : exn).
Arguments Returns {A} a.
Arguments Raises {A} e.

(** ** Python dictionaries of the configuration

    A [dict] keeps its keys in insertion order, which
    [next(iter(d.keys()))] and [tuple(d.values())] observe.  Keys are
    unique in every dictionary built with [dict_set]. *)

Definition dict (V : Type) : Type := list (string * V).

Fixpoint dict_get {V} (k : string) (d : dict V) : option V :=
  match d with
  | [] => None
  | (k', v) :: d' => if decide (k' = k) then Some v else dict_get k d'
  end.

Definition dict_mem {V} (k : string) (d : dict V) : bool :=
  bool_decide (is_Some (dict_get k d)).

(** [d[k] = v]: an existing key keeps its place, a new one goes last. *)
Fixpoint dict_set {V} (k : string) (v : V) (d : dict V) : dict V :=
  match d with
  | [] => [(k, v)]
  | (k', v') :: d' =>
      if decide (k' = k) then (k', v) :: d' else (k', v') :: dict_set k v d'
  end.

Definition dict_keys {V} (d : dict V) : list string := d.*1.
Definition dict_values {V} (d : dict V) : list V := d.*2.

(** [a == b] on two dictionaries of strings: same keys, same values,
    whatever the order. *)
Definition dict_eqb (a b : dict string) : bool :=
  bool_decide (length a = length b) &&
  forallb (λ kv, bool_decide (dict_get kv.1 b = Some kv.2)) a.

(** ** Python strings (ASCII) *)

Definition ascii_upper (c : ascii) : ascii :=
  let n := N_of_ascii c in
  if ((97 <=? n) && (n <=? 122))%N then ascii_of_N (n - 32) else c.

Definition ascii_lower (c : ascii) : ascii :=
  let n := N_of_ascii c in
  if ((65 <=? n) && (n <=? 90))%N then ascii_of_N (n + 32) else c.

Fixpoint str_lower (s : string) : string :=
  match s with
  | EmptyString => EmptyString
  | String c s' => String (ascii_lower c) (str_lower s')
  end.

(** [s.capitalize()]: first character upper-cased, the rest lower-cased. *)
Definition capitalize (s : string) : string :=
  match s with
  | EmptyString => EmptyString
  | String c s' => String (ascii_upper c) (str_lower s')
  end.

Fixpoint str_contains (c : ascii) (s : string) : bool :=
  match s with
  | EmptyString => false
  | String c' s' => bool_decide (c' = c) || str_contains c s'
  end.

Definition squote : ascii := ascii_of_N 39.
Definition dquote : ascii := ascii_of_N 34.
Definition backslash : ascii := ascii_of_N 92.

Definition hex_digit (n : N) : ascii :=
  if (n <? 10)%N then ascii_of_N (48 + n) else ascii_of_N (87 + n).

Definition str1 (c : ascii) : string := String c EmptyString.

Definition repr_char (q c : ascii) : string :=
  let n := N_of_ascii c in
  if bool_decide (c = q) || bool_decide (c = backslash)
  then String backslash (str1 c)
  else if (n =? 9)%N then String backslash "t"
  else if (n =? 10)%N then String backslash "n"
  else if (n =? 13)%N then String backslash "r"
  else if ((n <? 32) || (n =? 127))%N
  then String backslash (String "x"%char
         (String (hex_digit (n / 16)) (str1 (hex_digit (n mod 16)))))
  else str1 c.

Fixpoint repr_body (q : ascii) (s : string) : string :=
  match s with
  | EmptyString => EmptyString
  | String c s' => repr_char q c +:+ repr_body q s'
  end.

(** [repr(s)] of a string. *)
Definition repr_str (s : string) : string :=
  let q := if str_contains squote s && negb (str_contains dquote s)
           then dquote else squote in
  String q (repr_body q s) +:+ str1 q.

(** [str(d)] of a dictionary of strings. *)
Definition repr_dict (d : dict string) : string :=
  "{" +:+ String.concat ", "
            ((λ kv, repr_str kv.1 +:+ ": " +:+ repr_str kv.2) <$> d) +:+ "}".

(** ** The canvas of the toolkit

    [Representation] inherits from [tk.Canvas].  The canvas is the
    abstract 2D canvas of the editor: image items are rectangles with an
    integer position (anchor [nw]) and the size of their image, kept in a
    display list from bottom to top; item identifiers are handed out in
    increasing order from 1 and never reused.  The canvas shows an image
    of any size; the sizes that the imaging library refuses are refused
    where the image is made ([Image_new], [Image_resize]). *)

Definition image : Type := (Z * Z)%type.

Record canvas_item : Type := {
  it_x : Z;
  it_y : Z;
  it_image : image;
  it_tags : list string
}.

Record Canvas : Type := {
  cv_items : gmap Z canvas_item;
  cv_order : list Z;
  cv_next : Z
}.

Definition cv_empty : Canvas :=
  {| cv_items := ∅; cv_order := []; cv_next := 1 |}.

(** [create_image(x, y, image=im, anchor="nw", tag=...)] *)
Definition cv_create_image (x y : Z) (im : image) (tags : list string)
    (c : Canvas) : Z * Canvas :=
  let i := cv_next c in
  (i, {| cv_items := <[i := {| it_x := x; it_y := y; it_image := im;
                               it_tags := tags |}]> (cv_items c);
         cv_order := cv_order c ++ [i];
         cv_next := i + 1 |}).

(** [move(i, dx, dy)]; an identifier that names no item moves nothing. *)
Definition cv_move (i dx dy : Z) (c : Canvas) : Canvas :=
  {| cv_items := alter (λ it, {| it_x := it_x it + dx; it_y := it_y it + dy;
                                 it_image := it_image it;
                                 it_tags := it_tags it |}) i (cv_items c);
     cv_order := cv_order c;
     cv_next := cv_next c |}.

(** [delete(i)] *)
Definition cv_delete (i : Z) (c : Canvas) : Canvas :=
  {| cv_items := delete i (cv_items c);
     cv_order := filter (λ j, j ≠ i) (cv_order c);
     cv_next := cv_next c |}.

Definition item_bbox (it : canvas_item) : Z * Z * Z * Z :=
  (it_x it, it_y it, it_x it + (it_image it).1, it_y it + (it_image it).2).

(** [bbox(i)]: [None] when [i] names no item. *)
Definition cv_bbox (i : Z) (c : Canvas) : option (Z * Z * Z * Z) :=
  item_bbox <$> cv_items c !! i.

Definition axis_gap (p lo hi : Z) : Z :=
  if p <? lo then lo - p else if hi <? p then p - hi else 0.

(** Squared distance from the point to the rectangle of the item. *)
Definition item_dist2 (x y : Z) (it : canvas_item) : Z :=
  let '(x1, y1, x2, y2) := item_bbox it in
  let dx := axis_gap x x1 x2 in
  let dy := axis_gap y y1 y2 in
  dx * dx + dy * dy.

Definition closer (x y : Z) (c : Canvas) (best : option (Z * Z)) (i : Z)
    : option (Z * Z) :=
  match cv_items c !! i with
  | None => best
  | Some it =>
      let d := item_dist2 x y it in
      match best with
      | None => Some (i, d)
      | Some (_, bd) => if d <=? bd then Some (i, d) else best
      end
  end.

(** [find_closest(x, y)]: the item closest to the point, the topmost one
    among several at the same distance; the empty tuple on an empty
    canvas.  The result is a tuple of at most one identifier. *)
Definition cv_find_closest (x y : Z) (c : Canvas) : option Z :=
  fst <$> foldl (closer x y c) None (cv_order c).

(** [gettags(sel)] for the tuple [sel]. *)
Definition cv_gettags (sel : option Z) (c : Canvas) : outcome (list string) :=
  match sel with
  | None => Raises TclError
  | Some i => Returns (from_option it_tags [] (cv_items c !! i))
  end.

(** [Image.new(mode, size, color)]: an image of the size asked for; a
    negative width or height is refused. *)
Definition Image_new (size : Z * Z) : outcome image :=
  if (size.1 <? 0) || (size.2 <? 0) then Raises ValueError
  else Returns size.

(** [Image.resize(size)]: the new image has the size asked for; a width
    or height below 1 is refused, and so is a size that is not a pair. *)
Definition Image_resize (im : image) (size : list Z) : outcome image :=
  match size with
  | [w; h] =>
      if (w <? 1) || (h <? 1) then Raises ValueError
      else Returns (w, h)
  | _ => Raises (TypeError "size must be a pair")
  end.

(** [PhotoImage(image)]: the image as the toolkit displays it, of the
    size of [image]. *)
Definition PhotoImage (im : image) : image := im.
Arguments PhotoImage im /.
Arguments Image_new : simpl never.
Arguments Image_resize : simpl never.

(** ** Configuration and objects *)

Definition loc : Type := nat.

(** The [inputs] of an item: a named group given as a dictionary, a list
    of names, or one name. *)
Inductive inputs_t : Type :=
| InDict (d : dict string)
| InList (l : list string)
| InStr (s : string).

(** An item of the configuration.  A field that is [None] is a key the
    item does not have; [extendedEdges] refers to a dictionary object. *)
Record item_config : Type := {
  cfg_inputs : option inputs_t;
  cfg_frame : option (dict Z);
  cfg_extendedEdges : option loc
}.

Record Region : Type := {
  rg_config : item_config;
  rg_inputs : inputs_t;
  rg_frame : dict Z;
  rg_width : Z;
  rg_height : Z;
  rg_coords : Z * Z;
  rg_extended_edges : loc;
  rg_touch : image;
  rg_extended : image;
  rg_e : Z;
  rg_t : Z
}.

(** The methods of [Representation] that are bound to events. *)
Inductive handler : Type :=
| h_select_region
| h_deselect_region
| h_drag_stop
| h_drag
| h_move_region
| h_resize_region.

(** The attributes of a [Representation] that are methods bound to
    events: what [self.name] finds for a handler's name. *)
Definition handler_attr (name : string) : option handler :=
  if decide (name = "select_region") then Some h_select_region
  else if decide (name = "deselect_region") then Some h_deselect_region
  else if decide (name = "drag_stop") then Some h_drag_stop
  else if decide (name = "drag") then Some h_drag
  else if decide (name = "move_region") then Some h_move_region
  else if decide (name = "resize_region") then Some h_resize_region
  else None.

(** The host window ([self.master]): how the skin was opened, the archive,
    and the decoders of the imaging libraries, which are not part of the
    editor.  [cfp] and [Image_open_path] receive [wd.parent] and the asset
    reference it is joined with. *)
Record Master : Type := {
  OTYPE : string;
  wd_parent : string;
  zfile : dict string;
  cfp : string → string → list Z → outcome (list image);
  cfb : string → list Z → outcome (list image);
  Image_open_path : string → string → outcome image;
  Image_open_bytes : string → outcome image
}.

(** The editor state: the fields of the [Representation], the canvas and
    event bindings it inherits, the status text of the host
    ([master.cur_selected]), and the store of the objects it shares:
    [Region] objects by identity and margin dictionaries by reference. *)
Record state : Type := {
  master : Master;
  cur_selected : string;
  canvas : Canvas;
  bindings : gmap string (list handler);
  regions : list nat;
  selected : option nat;
  images : gmap string nat;
  _sel : option Z;
  selected_data : Z * Z;
  items : list item_config;
  mapping_size : dict Z;
  extended_edges : loc;
  assets : dict string;
  bg_image : option image;
  objs : list Region;
  heap : gmap loc (dict Z)
}.

(** Field updates of the state. *)

Definition set_cur_selected (v : string) (s : state) : state :=
  {| master := master s; cur_selected := v; canvas := canvas s;
     bindings := bindings s; regions := regions s; selected := selected s;
     images := images s; _sel := _sel s; selected_data := selected_data s;
     items := items s; mapping_size := mapping_size s;
     extended_edges := extended_edges s; assets := assets s;
     bg_image := bg_image s; objs := objs s; heap := heap s |}.

Definition set_canvas (v : Canvas) (s : state) : state :=
  {| master := master s; cur_selected := cur_selected s; canvas := v;
     bindings := bindings s; regions := regions s; selected := selected s;
     images := images s; _sel := _sel s; selected_data := selected_data s;
     items := items s; mapping_size := mapping_size s;
     extended_edges := extended_edges s; assets := assets s;
     bg_image := bg_image s; objs := objs s; heap := heap s |}.

Definition set_bindings (v : gmap string (list handler)) (s : state) : state :=
  {| master := master s; cur_selected := cur_selected s; canvas := canvas s;
     bindings := v; regions := regions s; selected := selected s;
     images := images s; _sel := _sel s; selected_data := selected_data s;
     items := items s; mapping_size := mapping_size s;
     extended_edges := extended_edges s; assets := assets s;
     bg_image := bg_image s; objs := objs s; heap := heap s |}.

Definition set_regions (v : list nat) (s : state) : state :=
  {| master := master s; cur_selected := cur_selected s; canvas := canvas s;
     bindings := bindings s; regions := v; selected := selected s;
     images := images s; _sel := _sel s; selected_data := selected_data s;
     items := items s; mapping_size := mapping_size s;
     extended_edges := extended_edges s; assets := assets s;
     bg_image := bg_image s; objs := objs s; heap := heap s |}.

Definition set_selected (v : option nat) (s : state) : state :=
  {| master := master s; cur_selected := cur_selected s; canvas := canvas s;
     bindings := bindings s; regions := regions s; selected := v;
     images := images s; _sel := _sel s; selected_data := selected_data s;
     items := items s; mapping_size := mapping_size s;
     extended_edges := extended_edges s; assets := assets s;
     bg_image := bg_image s; objs := objs s; heap := heap s |}.

Definition set_images (v : gmap string nat) (s : state) : state :=
  {| master := master s; cur_selected := cur_selected s; canvas := canvas s;
     bindings := bindings s; regions := regions s; selected := selected s;
     images := v; _sel := _sel s; selected_data := selected_data s;
     items := items s; mapping_size := mapping_size s;
     extended_edges := extended_edges s; assets := assets s;
     bg_image := bg_image s; objs := objs s; heap := heap s |}.

Definition set_sel (v : option Z) (s : state) : state :=
  {| master := master s; cur_selected := cur_selected s; canvas := canvas s;
     bindings := bindings s; regions := regions s; selected := selected s;
     images := images s; _sel := v; selected_data := selected_data s;
     items := items s; mapping_size := mapping_size s;
     extended_edges := extended_edges s; assets := assets s;
     bg_image := bg_image s; objs := objs s; heap := heap s |}.

Definition set_selected_data (v : Z * Z) (s : state) : state :=
  {| master := master s; cur_selected := cur_selected s; canvas := canvas s;
     bindings := bindings s; regions := regions s; selected := selected s;
     images := images s; _sel := _sel s; selected_data := v;
     items := items s; mapping_size := mapping_size s;
     extended_edges := extended_edges s; assets := assets s;
     bg_image := bg_image s; objs := objs s; heap := heap s |}.

Definition set_items (v : list item_config) (s : state) : state :=
  {| master := master s; cur_selected := cur_selected s; canvas := canvas s;
     bindings := bindings s; regions := regions s; selected := selected s;
     images := images s; _sel := _sel s; selected_data := selected_data s;
     items := v; mapping_size := mapping_size s;
     extended_edges := extended_edges s; assets := assets s;
     bg_image := bg_image s; objs := objs s; heap := heap s |}.

Definition set_mapping_size (v : dict Z) (s : state) : state :=
  {| master := master s; cur_selected := cur_selected s; canvas := canvas s;
     bindings := bindings s; regions := regions s; selected := selected s;
     images := images s; _sel := _sel s; selected_data := selected_data s;
     items := items s; mapping_size := v; extended_edges := extended_edges s;
     assets := assets s; bg_image := bg_image s; objs := objs s;
     heap := heap s |}.

Definition set_extended_edges (v : loc) (s : state) : state :=
  {| master := master s; cur_selected := cur_selected s; canvas := canvas s;
     bindings := bindings s; regions := regions s; selected := selected s;
     images := images s; _sel := _sel s; selected_data := selected_data s;
     items := items s; mapping_size := mapping_size s; extended_edges := v;
     assets := assets s; bg_image := bg_image s; objs := objs s;
     heap := heap s |}.

Definition set_assets (v : dict string) (s : state) : state :=
  {| master := master s; cur_selected := cur_selected s; canvas := canvas s;
     bindings := bindings s; regions := regions s; selected := selected s;
     images := images s; _sel := _sel s; selected_data := selected_data s;
     items := items s; mapping_size := mapping_size s;
     extended_edges := extended_edges s; assets := v; bg_image := bg_image s;
     objs := objs s; heap := heap s |}.

Definition set_bg_image (v : option image) (s : state) : state :=
  {| master := master s; cur_selected := cur_selected s; canvas := canvas s;
     bindings := bindings s; regions := regions s; selected := selected s;
     images := images s; _sel := _sel s; selected_data := selected_data s;
     items := items s; mapping_size := mapping_size s;
     extended_edges := extended_edges s; assets := assets s; bg_image := v;
     objs := objs s; heap := heap s |}.

Definition set_objs (v : list Region) (s : state) : state :=
  {| master := master s; cur_selected := cur_selected s; canvas := canvas s;
     bindings := bindings s; regions := regions s; selected := selected s;
     images := images s; _sel := _sel s; selected_data := selected_data s;
     items := items s; mapping_size := mapping_size s;
     extended_edges := extended_edges s; assets := assets s;
     bg_image := bg_image s; objs := v; heap := heap s |}.

Definition set_heap (v : gmap loc (dict Z)) (s : state) : state :=
  {| master := master s; cur_selected := cur_selected s; canvas := canvas s;
     bindings := bindings s; regions := regions s; selected := selected s;
     images := images s; _sel := _sel s; selected_data := selected_data s;
     items := items s; mapping_size := mapping_size s;
     extended_edges := extended_edges s; assets := assets s;
     bg_image := bg_image s; objs := objs s; heap := v |}.

(** Attribute updates of a [Region]. *)

Definition set_rg_touch (v : image) (r : Region) : Region :=
  {| rg_config := rg_config r; rg_inputs := rg_inputs r;
     rg_frame := rg_frame r; rg_width := rg_width r;
     rg_height := rg_height r; rg_coords := rg_coords r;
     rg_extended_edges := rg_extended_edges r; rg_touch := v;
     rg_extended := rg_extended r; rg_e := rg_e r; rg_t := rg_t r |}.

Definition set_rg_extended (v : image) (r : Region) : Region :=
  {| rg_config := rg_config r; rg_inputs := rg_inputs r;
     rg_frame := rg_frame r; rg_width := rg_width r;
     rg_height := rg_height r; rg_coords := rg_coords r;
     rg_extended_edges := rg_extended_edges r; rg_touch := rg_touch r;
     rg_extended := v; rg_e := rg_e r; rg_t := rg_t r |}.

Definition set_rg_e (v : Z) (r : Region) : Region :=
  {| rg_config := rg_config r; rg_inputs := rg_inputs r;
     rg_frame := rg_frame r; rg_width := rg_width r;
     rg_height := rg_height r; rg_coords := rg_coords r;
     rg_extended_edges := rg_extended_edges r; rg_touch := rg_touch r;
     rg_extended := rg_extended r; rg_e := v; rg_t := rg_t r |}.

Definition set_rg_t (v : Z) (r : Region) : Region :=
  {| rg_config := rg_config r; rg_inputs := rg_inputs r;
     rg_frame := rg_frame r; rg_width := rg_width r;
     rg_height := rg_height r; rg_coords := rg_coords r;
     rg_extended_edges := rg_extended_edges r; rg_touch := rg_touch r;
     rg_extended := rg_extended r; rg_e := rg_e r; rg_t := v |}.

(** ** Computations: state, with exceptions that keep the state *)

Definition M (A : Type) : Type := state → outcome A * state.

Definition ret {A} (a : A) : M A := λ s, (Returns a, s).

Definition raise {A} (e : exn) : M A := λ s, (Raises e, s).

Definition bind {A B} (m : M A) (k : A → M B) : M B :=
  λ s, match m s with
       | (Returns a, s') => k a s'
       | (Raises e, s') => (Raises e, s')
       end.

Notation "'let*' x ':=' m 'in' k" := (bind m (λ x, k))
  (at level 10, x name, m at level 100, k at level 200).
Notation "'let*' ' p ':=' m 'in' k" := (bind m (λ x, match x with p => k end))
  (at level 10, p pattern, m at level 100, k at level 200).
Notation "m ;; k" := (bind m (λ _, k))
  (at level 100, k at level 200, right associativity).

Definition read {A} (f : state → A) : M A := λ s, (Returns (f s), s).

Definition modify (f : state → state) : M unit := λ s, (Returns tt, f s).

Definition lift {A} (o : outcome A) : M A := λ s, (o, s).

(** [d[k]] on a lookup already made: [KeyError] when the key is absent. *)
Definition subscript {A} (k : string) (o : option A) : M A :=
  match o with
  | Some a => ret a
  | None => raise (KeyError k)
  end.

(** [try: body except ...: handler]; [handler e] is [None] for an
    exception that no [except] clause matches. *)
Definition try_except {A} (body : M A) (handler : exn → option (M A)) : M A :=
  λ s, match body s with
       | (Raises e, s') =>
           match handler e with
           | Some h => h s'
           | None => (Raises e, s')
           end
       | r => r
       end.

(** [for x in xs: body] *)
Fixpoint for_each {A} (xs : list A) (body : A → M unit) : M unit :=
  match xs with
  | [] => ret tt
  | x :: xs' => body x ;; for_each xs' body
  end.

(** The object a reference denotes. *)
Definition deref_region (rid : nat) : M Region :=
  λ s, match objs s !! rid with
       | Some r => (Returns r, s)
       | None => (Raises ReferenceError, s)
       end.

Definition deref_dict (l : loc) : M (dict Z) :=
  λ s, match heap s !! l with
       | Some d => (Returns d, s)
       | None => (Raises ReferenceError, s)
       end.

(** [self.attr = v] on the [Region] object [rid]. *)
Definition update_region (rid : nat) (f : Region → Region) : M unit :=
  modify (λ s, set_objs (alter f rid (objs s)) s).

(** The canvas methods, on the canvas of the state. *)
Definition create_image (x y : Z) (im : image) (tags : list string) : M Z :=
  λ s, let '(i, c) := cv_create_image x y im tags (canvas s) in
       (Returns i, set_canvas c s).

Definition move (i dx dy : Z) : M unit :=
  modify (λ s, set_canvas (cv_move i dx dy (canvas s)) s).

Definition delete_item (i : Z) : M unit :=
  modify (λ s, set_canvas (cv_delete i (canvas s)) s).

(** [x1, y1, x2, y2 = self.bbox(i)]: unpacking [None] is a [TypeError]. *)
Definition bbox_unpack (i : Z) : M (Z * Z * Z * Z) :=
  λ s, match cv_bbox i (canvas s) with
       | Some bb => (Returns bb, s)
       | None => (Raises (TypeError "cannot unpack non-iterable NoneType object"), s)
       end.

(** [self.images.pop(k)] and [self.images.update({k: rid})] *)
Definition images_pop (k : string) : M nat :=
  λ s, match images s !! k with
       | Some rid => (Returns rid, set_images (delete k (images s)) s)
       | None => (Raises (KeyError k), s)
       end.

Definition images_update (k : string) (rid : nat) : M unit :=
  modify (λ s, set_images (<[k := rid]> (images s)) s).

(** [self.bind(seq, h)], [self.bind(seq, h, "+")] and [self.unbind(seq)] *)
Definition bind_event (seq : string) (h : handler) (add : bool) : M unit :=
  modify (λ s, set_bindings
    (<[seq := if add then default [] (bindings s !! seq) ++ [h] else [h]]>
       (bindings s)) s).

Definition unbind (seq : string) : M unit :=
  modify (λ s, set_bindings (delete seq (bindings s)) s).

(** [self.name] for the name of a handler. *)
Definition getattr_handler (name : string) : M handler :=
  match handler_attr name with
  | Some h => ret h
  | None => raise (AttributeError
      ("'Representation' object has no attribute '" +:+ name +:+ "'"))
  end.

(** ** [BUTTON_NAMES] *)

Definition BUTTON_NAMES : dict (dict string) :=
  [ ("Analog Stick", [ ("up", "analogStickUp"); ("down", "analogStickDown");
                       ("left", "analogStickLeft");
                       ("right", "analogStickRight") ]);
    ("D-Pad", [ ("up", "up"); ("down", "down"); ("left", "left");
                ("right", "right") ]);
    ("Touch Screen", [ ("x", "touchScreenX"); ("y", "touchScreenY") ]) ].

(** ** class [Region] *)

Module Region.

(** The loop of [__init__] that fills the override [mine] with the
    margins of the representation it lacks.  The keys are those of the
    representation's dictionary when the loop starts: the loop inserts
    into another dictionary, or into none when the two are one object. *)
Definition fill_edge (mine rep_edges : loc) (key : string) : M unit :=
  let* d := deref_dict mine in
  if dict_mem key d then ret tt
  else
    let* rd := deref_dict rep_edges in
    let* v := subscript key (dict_get key rd) in
    modify (λ s, set_heap (<[mine := dict_set key v d]> (heap s)) s).

(** [Region(representation, item)]: the identity of the new object. *)
Definition init (item : item_config) : M nat :=
  let* inputs := subscript "inputs" (cfg_inputs item) in
  let* frame := subscript "frame" (cfg_frame item) in
  let* width := subscript "width" (dict_get "width" frame) in
  let* height := subscript "height" (dict_get "height" frame) in
  let* x := subscript "x" (dict_get "x" frame) in
  let* y := subscript "y" (dict_get "y" frame) in
  let* rep_edges := read extended_edges in
  let* edges :=
    match cfg_extendedEdges item with
    | Some mine =>
        let* rd := deref_dict rep_edges in
        for_each (dict_keys rd) (fill_edge mine rep_edges) ;;
        ret mine
    | None => ret rep_edges
    end in
  let* d := deref_dict edges in
  let* top := subscript "top" (dict_get "top" d) in
  let* bottom := subscript "bottom" (dict_get "bottom" d) in
  let* left := subscript "left" (dict_get "left" d) in
  let* right := subscript "right" (dict_get "right" d) in
  let* touch := lift (Image_new (width, height)) in
  let* extended :=
    lift (Image_new (left + width + right, top + height + bottom)) in
  let _pi_t := PhotoImage touch in
  let _pi_e := PhotoImage extended in
  let* e := create_image (x - left) (y - top) _pi_e [] in
  let* t := create_image x y _pi_t [] in
  let* rid := read (λ s, length (objs s)) in
  modify (λ s, set_objs (objs s ++
    [ {| rg_config := item; rg_inputs := inputs; rg_frame := frame;
         rg_width := width; rg_height := height; rg_coords := (x, y);
         rg_extended_edges := edges; rg_touch := touch;
         rg_extended := extended; rg_e := e; rg_t := t |} ]) s) ;;
  images_update (pretty t) rid ;;
  images_update (pretty e) rid ;;
  ret rid.

Definition move (self : nat) (delta_x delta_y : Z) : M unit :=
  let* r := deref_region self in
  move (rg_e r) delta_x delta_y ;;
  let* r := deref_region self in
  move (rg_t r) delta_x delta_y.

Definition resize (self : nat) (delta_w delta_h : Z) (which : bool)
    : M unit :=
  let* r := deref_region self in
  let* '(x1, y1, x2, y2) := bbox_unpack (rg_e r) in
  images_pop (pretty (rg_e r)) ;;
  delete_item (rg_e r) ;;
  let w := x2 - x1 in
  let h := y2 - y1 in
  let* ext := lift (Image_resize (rg_extended r) [w + delta_w; h + delta_h]) in
  update_region self (set_rg_extended ext) ;;
  let _pi_e := PhotoImage ext in
  let* e := create_image x1 y1 _pi_e [] in
  update_region self (set_rg_e e) ;;
  images_update (pretty e) self ;;
  if which then
    let* r := deref_region self in
    let* '(x1, y1, x2, y2) := bbox_unpack (rg_t r) in
    images_pop (pretty (rg_t r)) ;;
    delete_item (rg_t r) ;;
    let w := x2 - x1 in
    let h := y2 - y1 in
    let* tch := lift (Image_resize (rg_touch r) [w + delta_w; h + delta_h]) in
    update_region self (set_rg_touch tch) ;;
    let _pi_t := PhotoImage tch in
    let* t := create_image x1 y1 _pi_t [] in
    update_region self (set_rg_t t) ;;
    images_update (pretty t) self
  else ret tt.

End Region.

(** ** class [Representation] *)

(** A pointer or keyboard event: the fields the handlers read. *)
Record event : Type := {
  ev_x : Z;
  ev_y : Z;
  ev_keysym : string;
  ev_state : Z
}.

Definition arrows : list string := ["<Left>"; "<Right>"; "<Up>"; "<Down>"].

(** [bool(0x1 & event.state)] *)
Definition shift_held (ev : event) : bool :=
  negb (Z.land 1 (ev_state ev) =? 0).

Module Representation.

(** [value == self.selected.inputs] for a group of [BUTTON_NAMES]. *)
Definition group_eq (value : dict string) (inputs : inputs_t) : bool :=
  match inputs with
  | InDict d => dict_eqb value d
  | _ => false
  end.

(** [self.selected.attr]: [None] has no attribute. *)
Definition selected_region (attr : string) : M (nat * Region) :=
  let* selected := read selected in
  match selected with
  | None => raise (AttributeError
      ("'NoneType' object has no attribute '" +:+ attr +:+ "'"))
  | Some rid => let* r := deref_region rid in ret (rid, r)
  end.

(** [next(key for key, value in BUTTON_NAMES.items()
          if value == self.selected.inputs)] *)
Fixpoint next_group (groups : dict (dict string)) : M string :=
  match groups with
  | [] => raise StopIteration
  | (key, value) :: groups' =>
      let* '(_, r) := selected_region "inputs" in
      if group_eq value (rg_inputs r) then ret key else next_group groups'
  end.

(** The [except StopIteration] branch.  The label is only ever
    formatted into the status line, so a binding that is not a list is
    given by the text [str] makes of it. *)
Definition fallback_label : M string :=
  let* '(_, r) := selected_region "inputs" in
  match rg_inputs r with
  | InList l =>
      if (1 <? length l)%nat
      then ret (String.concat ", " (capitalize <$> l))
      else match l with
           | i :: _ => ret (capitalize i)
           | [] => raise IndexError
           end
  | InStr s => ret s
  | InDict d => ret (repr_dict d)
  end.

Definition status_label : M string :=
  try_except (next_group BUTTON_NAMES)
    (λ e, match e with
          | StopIteration => Some fallback_label
          | _ => None
          end).

(** [self.bbox(self._sel)] unpacked, for the tuple [_sel]. *)
Definition bbox_sel : M (Z * Z * Z * Z) :=
  let* sel := read _sel in
  match sel with
  | None => raise TclError
  | Some i => bbox_unpack i
  end.

Definition status_line (key : string) (bb : Z * Z * Z * Z) : string :=
  let '(x1, y1, x2, y2) := bb in
  key +:+ " | X: " +:+ pretty x1 +:+ " Y: " +:+ pretty y1 +:+
  " | W: " +:+ pretty (x2 - x1) +:+ " H: " +:+ pretty (y2 - y1).

Definition statusbar_updater : M unit :=
  let* key := status_label in
  let* bb := bbox_sel in
  modify (set_cur_selected (status_line key bb)).

Definition select_region (ev : event) : M unit :=
  let* sel := read (λ s, cv_find_closest (ev_x ev) (ev_y ev) (canvas s)) in
  let* tags := λ s, (cv_gettags sel (canvas s), s) in
  if bool_decide ("nodrag" ∈ tags) then ret tt
  else
    modify (set_sel sel) ;;
    let* sel0 := match sel with
                 | Some i => ret i
                 | None => raise IndexError
                 end in
    let* rid := λ s, subscript (pretty sel0) (images s !! pretty sel0) s in
    modify (set_selected (Some rid)) ;;
    let* '(_, r) := selected_region "_e" in
    let* hit := read _sel in
    (if bool_decide (Some (rg_e r) = hit)
     then for_each arrows (λ b,
            unbind b ;;
            let* h := getattr_handler "resize_extended" in
            bind_event b h false)
     else for_each arrows (λ b,
            unbind b ;;
            let* h := getattr_handler "move_region" in
            bind_event b h false ;;
            let* h := getattr_handler "resize_region" in
            bind_event b h true)) ;;
    modify (set_selected_data (ev_x ev, ev_y ev)) ;;
    statusbar_updater.

Definition deselect_region (_ : event) : M unit :=
  let* selected := read selected in
  match selected with
  | None => ret tt
  | Some _ =>
      modify (set_selected None) ;;
      modify (set_sel None) ;;
      modify (set_cur_selected EmptyString)
  end.

Definition drag (ev : event) : M unit :=
  let* '(ax, ay) := read selected_data in
  let delta_x := ev_x ev - ax in
  let delta_y := ev_y ev - ay in
  let* '(rid, _) := selected_region "move" in
  Region.move rid delta_x delta_y ;;
  modify (set_selected_data (ev_x ev, ev_y ev)) ;;
  statusbar_updater.

Definition drag_stop (_ : event) : M unit :=
  modify (set_selected_data (0, 0)).

Definition move_region (ev : event) : M unit :=
  let* selected := read selected in
  match selected with
  | None => ret tt
  | Some rid =>
      (if bool_decide (ev_keysym ev = "Right") && negb (shift_held ev)
       then Region.move rid 1 0
       else if bool_decide (ev_keysym ev = "Left") && negb (shift_held ev)
       then Region.move rid (-1) 0
       else if bool_decide (ev_keysym ev = "Up") && negb (shift_held ev)
       then Region.move rid 0 (-1)
       else if bool_decide (ev_keysym ev = "Down") && negb (shift_held ev)
       then Region.move rid 0 1
       else ret tt) ;;
      statusbar_updater
  end.

Definition resize_region (ev : event) : M unit :=
  let* selected := read selected in
  match selected with
  | None => ret tt
  | Some rid =>
      if bool_decide (ev_keysym ev = "Right") && shift_held ev
      then Region.resize rid 1 0 true
      else if bool_decide (ev_keysym ev = "Left") && shift_held ev
      then Region.resize rid (-1) 0 true
      else if bool_decide (ev_keysym ev = "Up") && shift_held ev
      then Region.resize rid 0 (-1) true
      else if bool_decide (ev_keysym ev = "Down") && shift_held ev
      then Region.resize rid 0 1 true
      else ret tt
  end.

(** [xs[0]] *)
Definition first_of {A} (xs : list A) : M A :=
  match xs with
  | x :: _ => ret x
  | [] => raise IndexError
  end.

(** [self.master.zfile.read(name)]: [KeyError] for a name that is not
    in the archive. *)
Definition zfile_read (name : string) : M string :=
  let* m := read master in
  subscript name (dict_get name (zfile m)).

(** The body of the [try] of [__init__]. *)
Definition load_image (key : string) (size : list Z) : M image :=
  let* m := read master in
  let* assets := read assets in
  if dict_mem "resizable" assets then
    if decide (OTYPE m = "dir") then
      let* ref := subscript key (dict_get key assets) in
      let* pages := lift (cfp m (wd_parent m) ref size) in
      first_of pages
    else
      let* ref := subscript key (dict_get key assets) in
      let* data := zfile_read ref in
      let* pages := lift (cfb m data size) in
      first_of pages
  else
    if decide (OTYPE m = "dir") then
      let* ref := subscript key (dict_get key assets) in
      let* im := lift (Image_open_path m (wd_parent m) ref) in
      lift (Image_resize im size)
    else
      let* ref := subscript key (dict_get key assets) in
      let* data := zfile_read ref in
      let* im := lift (Image_open_bytes m data) in
      lift (Image_resize im size).

(** The [except (PDFPageCountError, KeyError)] clause of [__init__]. *)
Definition load_failed (e : exn) : option (M image) :=
  match e with
  | KeyError _ => Some (raise (SystemExit "Couldn't get the correct key!"))
  | PDFPageCountError =>
      Some (raise (SystemExit
        "Couldn't get PDF information! Check your Poppler version."))
  | _ => None
  end.

Definition bind_method (seq name : string) (add : bool) : M unit :=
  let* h := getattr_handler name in
  bind_event seq h add.

(** [Representation(items, mapping_size, extended_edges, assets)] *)
Definition init (items : list item_config) (mapping_size : dict Z)
    (extended_edges : loc) (assets : dict string) : M unit :=
  modify (set_canvas cv_empty) ;;
  modify (set_bindings ∅) ;;
  modify (set_regions []) ;;
  modify (set_selected None) ;;
  modify (set_images ∅) ;;
  modify (set_sel None) ;;
  modify (set_selected_data (0, 0)) ;;
  modify (set_items items) ;;
  modify (set_mapping_size mapping_size) ;;
  modify (set_extended_edges extended_edges) ;;
  modify (set_assets assets) ;;
  let* key := match dict_keys assets with
              | k :: _ => ret k
              | [] => raise StopIteration
              end in
  let size := dict_values mapping_size in
  let* image := try_except (load_image key size) load_failed in
  let _bg_image := PhotoImage image in
  modify (set_bg_image (Some _bg_image)) ;;
  create_image 0 0 _bg_image ["nodrag"] ;;
  for_each items (λ item,
    let* rid := Region.init item in
    modify (λ s, set_regions (regions s ++ [rid]) s)) ;;
  bind_method "<Button-1>" "select_region" false ;;
  bind_method "<Escape>" "deselect_region" false ;;
  bind_method "<ButtonRelease-1>" "drag_stop" false ;;
  bind_method "<B1-Motion>" "drag" false ;;
  for_each arrows (λ b,
    bind_method b "move_region" false ;;
    bind_method b "resize_region" true).

Definition run_handler (h : handler) (ev : event) : M unit :=
  match h with
  | h_select_region => select_region ev
  | h_deselect_region => deselect_region ev
  | h_drag_stop => drag_stop ev
  | h_drag => drag ev
  | h_move_region => move_region ev
  | h_resize_region => resize_region ev
  end.

(** The event loop delivering one event: the handlers bound to the
    sequence run in the order they were bound; an exception a handler
    raises is reported by the toolkit and the next handler still runs.
    The result lists the exceptions reported. *)
Definition dispatch (seq : string) (ev : event) (s : state)
    : list exn * state :=
  foldl (λ acc h,
           match run_handler h ev acc.2 with
           | (Returns _, s') => (acc.1, s')
           | (Raises e, s') => (acc.1 ++ [e], s')
           end)
        ([], s) (default [] (bindings s !! seq)).

End Representation.

(** The state a [Representation] is constructed in: the host window and
    the dictionaries of the document exist, nothing else does. *)
Definition boot (m : Master) (h : gmap loc (dict Z)) : state :=
  {| master := m; cur_selected := EmptyString; canvas := cv_empty;
     bindings := ∅; regions := []; selected := None; images := ∅;
     _sel := None; selected_data := (0, 0); items := []; mapping_size := [];
     extended_edges := 0%nat; assets := []; bg_image := None; objs := [];
     heap := h |}.

(** ** Observations and invariants *)

(** Every identifier in use was handed out before [cv_next]. *)
Definition canvas_fresh (c : Canvas) : Prop :=
  map_Forall (λ i _, i < cv_next c) (cv_items c).

(** The [Region] object [rid] owns two distinct canvas items, both in
    the registry. *)
Definition region_ok (rid : nat) (s : state) : Prop :=
  ∃ r, objs s !! rid = Some r ∧
       is_Some (cv_items (canvas s) !! rg_e r) ∧
       is_Some (cv_items (canvas s) !! rg_t r) ∧
       rg_e r ≠ rg_t r ∧
       is_Some (images s !! pretty (rg_e r)) ∧
       is_Some (images s !! pretty (rg_t r)) ∧
       canvas_fresh (canvas s).

(** The bounding boxes of the two rectangles of a [Region], and their
    width and height. *)
Definition extended_bbox_of (rid : nat) (s : state) : option (Z * Z * Z * Z) :=
  r ← objs s !! rid; cv_bbox (rg_e r) (canvas s).

Definition core_bbox_of (rid : nat) (s : state) : option (Z * Z * Z * Z) :=
  r ← objs s !! rid; cv_bbox (rg_t r) (canvas s).

Definition bbox_size (bb : Z * Z * Z * Z) : Z * Z :=
  let '(x1, y1, x2, y2) := bb in (x2 - x1, y2 - y1).

Definition extended_size (rid : nat) (s : state) : option (Z * Z) :=
  bbox_size <$> extended_bbox_of rid s.

Definition core_size (rid : nat) (s : state) : option (Z * Z) :=
  bbox_size <$> core_bbox_of rid s.

(** A rectangle of the given size grown by the deltas. *)
Definition grown (dw dh : Z) (size : Z * Z) : Z * Z :=
  (size.1 + dw, size.2 + dh).

(** The state once [__init__] has assigned the attributes, before it
    looks at the assets. *)
Definition with_attributes (items : list item_config) (mapping_size : dict Z)
    (extended_edges : loc) (assets : dict string) (s : state) : state :=
  set_assets assets (set_extended_edges extended_edges
    (set_mapping_size mapping_size (set_items items
      (set_selected_data (0, 0) (set_sel None (set_images ∅
        (set_selected None (set_regions [] (set_bindings ∅
          (set_canvas cv_empty s)))))))))).

(** A computation that never publishes a status text. *)
Definition keeps_status {A} (m : M A) : Prop :=
  ∀ s, cur_selected (m s).2 = cur_selected s.

(** The item a resize leaves in place of [it]: same corner, grown image,
    no tags. *)
Definition resized_item (dw dh : Z) (it : canvas_item) : canvas_item :=
  {| it_x := it_x it; it_y := it_y it;
     it_image := grown dw dh (it_image it); it_tags := [] |}.

(** A size [Image.resize] accepts: no side below 1. *)
Definition fits (size : Z * Z) : bool :=
  (1 <=? size.1) && (1 <=? size.2).

(** The sizes that [resize(dw, dh, which)] asks for on the [Region]
    object [rid] are accepted: the size of the extended rectangle plus
    the deltas, and that of the core rectangle plus the deltas when
    [which] holds. *)
Definition resize_fits (rid : nat) (dw dh : Z) (which : bool) (s : state)
    : bool :=
  match extended_size rid s, core_size rid s with
  | Some e, Some c =>
      fits (grown dw dh e) && (negb which || fits (grown dw dh c))
  | _, _ => false
  end.

(** Margins none of which is negative. *)
Definition margins_nonneg (d : dict Z) : Prop :=
  ∀ k v, dict_get k d = Some v → 0 ≤ v.

(** ** A small document

    One region bound to ["a"], frame [(10, 10, 20, 20)], no margins of
    its own; default margins of 2 on every edge; a 400 by 300 background
    read from an archive. *)

Definition scenario_master : Master :=
  {| OTYPE := "zip"; wd_parent := "/skins";
     zfile := [("skin.png", "PNG"); ("skin.pdf", "not a PDF")];
     cfp := λ _ _ _, Raises PDFPageCountError;
     cfb := λ _ _, Raises PDFPageCountError;
     Image_open_path := λ _ _, Raises OSError;
     Image_open_bytes := λ _, Returns (64, 64) |}.

Definition scenario_heap : gmap loc (dict Z) :=
  {[ 0%nat := [("top", 2); ("bottom", 2); ("left", 2); ("right", 2)] ]}.

Definition scenario_item : item_config :=
  {| cfg_inputs := Some (InList ["a"]);
     cfg_frame := Some [("x", 10); ("y", 10); ("width", 20); ("height", 20)];
     cfg_extendedEdges := None |}.

Definition scenario_size : dict Z := [("width", 400); ("height", 300)].

(** The editor after construction. *)
Definition scenario : state :=
  (Representation.init [scenario_item] scenario_size 0%nat
     [("small", "skin.png")] (boot scenario_master scenario_heap)).2.

Definition pointer (x y : Z) : event :=
  {| ev_x := x; ev_y := y; ev_keysym := "??"; ev_state := 0 |}.

Definition key (keysym : string) (modifiers : Z) : event :=
  {| ev_x := 0; ev_y := 0; ev_keysym := keysym; ev_state := modifiers |}.

(** The editor after a press at [(15, 15)], inside the core rectangle. *)
Definition scenario_selected : state :=
  (Representation.dispatch "<Button-1>" (pointer 15 15) scenario).2.

(** ** A document with two pads

    An analog stick given as a named group, with the default margins,
    and a pad bound to ["x"] and ["y"] whose own margins name only the
    top edge. *)

Definition pads_heap : gmap loc (dict Z) :=
  {[ 0%nat := [("top", 2); ("bottom", 2); ("left", 2); ("right", 2)];
     1%nat := [("top", 5)] ]}.

Definition stick_item : item_config :=
  {| cfg_inputs := Some (InDict
       [ ("up", "analogStickUp"); ("down", "analogStickDown");
         ("left", "analogStickLeft"); ("right", "analogStickRight") ]);
     cfg_frame := Some [("x", 10); ("y", 10); ("width", 20); ("height", 20)];
     cfg_extendedEdges := None |}.

Definition xy_item : item_config :=
  {| cfg_inputs := Some (InList ["x"; "y"]);
     cfg_frame := Some [("x", 100); ("y", 100); ("width", 30);
                        ("height", 30)];
     cfg_extendedEdges := Some 1%nat |}.

Definition pads : state :=
  (Representation.init [stick_item; xy_item] scenario_size 0%nat
     [("small", "skin.png")] (boot scenario_master pads_heap)).2.

(** After a press inside the core rectangle of the stick, and of the
    other pad. *)
Definition pads_stick_selected : state :=
  (Representation.dispatch "<Button-1>" (pointer 15 15) pads).2.

Definition pads_xy_selected : state :=
  (Representation.dispatch "<Button-1>" (pointer 110 110) pads).2.

(** The same document when only the stick has been constructed: the
    state the second pad is constructed in. *)
Definition pads_before_xy : state :=
  (Representation.init [stick_item] scenario_size 0%nat
     [("small", "skin.png")] (boot scenario_master pads_heap)).2.

(** A bounding box moved by the deltas, and an item moved by them. *)
Definition shift_bbox (dx dy : Z) (bb : Z * Z * Z * Z) : Z * Z * Z * Z :=
  let '(x1, y1, x2, y2) := bb in (x1 + dx, y1 + dy, x2 + dx, y2 + dy).

Definition shift_item (dx dy : Z) (it : canvas_item) : canvas_item :=
  {| it_x := it_x it + dx; it_y := it_y it + dy; it_image := it_image it;
     it_tags := it_tags it |}.

(** The margins the two rectangles of a region show on the canvas: how
    far the extended rectangle reaches beyond the core one on the left,
    top, right and bottom. *)
Definition margins_between (ext core : Z * Z * Z * Z) : Z * Z * Z * Z :=
  let '(ex1, ey1, ex2, ey2) := ext in
  let '(cx1, cy1, cx2, cy2) := core in
  (cx1 - ex1, cy1 - ey1, ex2 - cx2, ey2 - cy2).

Definition margins_of (rid : nat) (s : state) : option (Z * Z * Z * Z) :=
  ext ← extended_bbox_of rid s;
  core ← core_bbox_of rid s;
  Some (margins_between ext core).



(** The bindings of the four arrow keys after a selection of a core
    rectangle. *)
Definition arrows_bound (hs : list handler)
    (b : gmap string (list handler)) : gmap string (list handler) :=
  foldl (λ acc seq, <[seq := hs]> acc) b arrows.

(** ** A document with a touch screen

    The bindings of the touch screen, written with [y] before [x], and
    the editor after a press inside its core rectangle. *)

Definition touch_item : item_config :=
  {| cfg_inputs := Some (InDict [ ("y", "touchScreenY");
                                  ("x", "touchScreenX") ]);
     cfg_frame := Some [("x", 10); ("y", 10); ("width", 20); ("height", 20)];
     cfg_extendedEdges := None |}.

Definition touch_selected : state :=
  (Representation.dispatch "<Button-1>" (pointer 15 15)
     (Representation.init [touch_item] scenario_size 0%nat
        [("small", "skin.png")] (boot scenario_master scenario_heap)).2).2.

(** An item the constructor of [Region] accepts: it has its bindings and
    the four keys of its frame, with a width and a height that are not
    negative, and its own margins, when it has any, are a dictionary of
    the store none of whose values is negative. *)
Definition item_ok (h : gmap loc (dict Z)) (item : item_config) : Prop :=
  is_Some (cfg_inputs item) ∧
  (∃ frame width height,
     cfg_frame item = Some frame ∧
     dict_get "width" frame = Some width ∧ 0 ≤ width ∧
     dict_get "height" frame = Some height ∧ 0 ≤ height ∧
     is_Some (dict_get "x" frame) ∧
     is_Some (dict_get "y" frame)) ∧
  match cfg_extendedEdges item with
  | Some mine => ∃ ov, h !! mine = Some ov ∧ margins_nonneg ov
  | None => True
  end.

(** Default margins that name the four edges. *)
Definition four_edges (d : dict Z) : Prop :=
  ∀ k, k ∈ ["top"; "bottom"; "left"; "right"] → is_Some (dict_get k d).

(** The loop of [Representation.__init__] that constructs the regions. *)
Definition construct_region (item : item_config) : M unit :=
  let* rid := Region.init item in
  modify (λ s, set_regions (regions s ++ [rid]) s).

(** The state once the background has been created. *)
Definition with_background (im : image) (s : state) : state :=
  set_canvas (cv_create_image 0 0 im ["nodrag"] cv_empty).2
    (set_bg_image (Some im) s).

(** The bindings [Representation.__init__] makes. *)
Definition initial_bindings : gmap string (list handler) :=
  arrows_bound [h_move_region; h_resize_region]
    (<["<B1-Motion>" := [h_drag]]>
       (<["<ButtonRelease-1>" := [h_drag_stop]]>
          (<["<Escape>" := [h_deselect_region]]>
             (<["<Button-1>" := [h_select_region]]> ∅)))).

(** An item without bindings. *)
Definition broken_item : item_config :=
  {| cfg_inputs := None;
     cfg_frame := Some [("x", 50); ("y", 50); ("width", 20); ("height", 20)];
     cfg_extendedEdges := None |}.

(** Both rectangles of the [Region] object [rid] are entered in the
    registry under that object. *)
Definition registered (rid : nat) (s : state) : Prop :=
  ∃ r, objs s !! rid = Some r ∧
       images s !! pretty (rg_e r) = Some rid ∧
       images s !! pretty (rg_t r) = Some rid.

(** * Properties *)

(** ** Running computations step by step *)

Lemma bind_returns {A B} (m : M A) (k : A → M B) s a s' :
  m s = (Returns a, s') → bind m k s = k a s'.
Proof. unfold bind. by intros ->. Qed.

Lemma bind_raises {A B} (m : M A) (k : A → M B) s e s' :
  m s = (Raises e, s') → bind m k s = (Raises e, s').
Proof. unfold bind. by intros ->. Qed.

Lemma deref_region_run rid s r :
  objs s !! rid = Some r → deref_region rid s = (Returns r, s).
Proof. unfold deref_region. by intros ->. Qed.

Lemma deref_dict_run l s d :
  heap s !! l = Some d → deref_dict l s = (Returns d, s).
Proof. unfold deref_dict. by intros ->. Qed.

Lemma bbox_unpack_run i s it :
  cv_items (canvas s) !! i = Some it →
  bbox_unpack i s = (Returns (item_bbox it), s).
Proof. unfold bbox_unpack, cv_bbox. by intros ->. Qed.

Lemma images_pop_run k s o :
  images s !! k = Some o →
  images_pop k s = (Returns o, set_images (delete k (images s)) s).
Proof. unfold images_pop. by intros ->. Qed.

(** One statement that returns: by the given lemma, or by computation. *)
Ltac run_with lem :=
  erewrite bind_returns; [| apply lem; simpl; try eassumption ]; simpl.
Ltac run := erewrite bind_returns; [| reflexivity ]; simpl.

(** ** The canvas *)

Lemma canvas_fresh_lookup c i :
  canvas_fresh c → cv_next c ≤ i → cv_items c !! i = None.
Proof.
  intros Hf Hi. destruct (cv_items c !! i) eqn:E; [|done].
  apply Hf in E. simpl in E. lia.
Qed.

Lemma bbox_size_item it : bbox_size (item_bbox it) = it_image it.
Proof.
  destruct it as [x y [w h] tags]. unfold bbox_size, item_bbox. simpl.
  f_equal; lia.
Qed.

(** ** [Region.resize] *)

(** The sizes the imaging library accepts and refuses. *)
Lemma Image_resize_fits im w h :
  fits (w, h) = true → Image_resize im [w; h] = Returns (w, h).
Proof.
  unfold fits, Image_resize. simpl.
  destruct (Z.leb_spec 1 w), (Z.leb_spec 1 h), (Z.ltb_spec w 1),
    (Z.ltb_spec h 1); simpl; (done || lia).
Qed.


Lemma Image_new_nonneg w h :
  0 ≤ w → 0 ≤ h → Image_new (w, h) = Returns (w, h).
Proof.
  unfold Image_new. simpl. intros.
  destruct (Z.ltb_spec w 0), (Z.ltb_spec h 0); simpl; (done || lia).
Qed.

Lemma fits_bbox it dw dh b :
  fits (grown dw dh (it_image it)) = b →
  fits (it_x it + (it_image it).1 - it_x it + dw,
        it_y it + (it_image it).2 - it_y it + dh) = b.
Proof.
  intros <-. unfold fits, grown. simpl. f_equal; f_equal; lia.
Qed.




(** The sizes of the rectangles of a well-formed region are those of the
    images of its items. *)
Lemma region_sizes rid s r ie it :
  objs s !! rid = Some r →
  cv_items (canvas s) !! rg_e r = Some ie →
  cv_items (canvas s) !! rg_t r = Some it →
  extended_size rid s = Some (it_image ie) ∧
  core_size rid s = Some (it_image it).
Proof.
  intros Hr He Ht.
  unfold extended_size, core_size, extended_bbox_of, core_bbox_of, cv_bbox.
  rewrite Hr. cbn [mbind option_bind]. rewrite He, Ht.
  cbn [fmap option_fmap option_map]. by rewrite !bbox_size_item.
Qed.

Lemma resize_fits_items rid s r ie it dw dh which :
  objs s !! rid = Some r →
  cv_items (canvas s) !! rg_e r = Some ie →
  cv_items (canvas s) !! rg_t r = Some it →
  resize_fits rid dw dh which s =
    fits (grown dw dh (it_image ie)) &&
    (negb which || fits (grown dw dh (it_image it))).
Proof.
  intros Hr He Ht. unfold resize_fits.
  destruct (region_sizes rid s r ie it Hr He Ht) as [-> ->]. done.
Qed.


Lemma scenario_region_ok : region_ok 0 scenario.
Proof.
  eexists. split; [vm_compute; reflexivity|].
  split; [vm_compute; eauto|]. split; [vm_compute; eauto|].
  split; [intros E; vm_compute in E; discriminate|].
  split; [vm_compute; eauto|]. split; [vm_compute; eauto|].
  unfold canvas_fresh. apply (bool_decide_unpack _). vm_compute. exact I.
Qed.






(** ** Handlers with nothing selected *)

(** The handlers that test [self.selected is None] return at once. *)
Lemma guarded_handlers_ignore_no_selection ev s :
  selected s = None →
  Representation.move_region ev s = (Returns tt, s) ∧
  Representation.resize_region ev s = (Returns tt, s) ∧
  Representation.deselect_region ev s = (Returns tt, s).
Proof.
  intros H.
  unfold Representation.move_region, Representation.resize_region,
    Representation.deselect_region, bind, read.
  by rewrite H.
Qed.

(** C5.  With no region selected, [drag] does not return: it raises
    [AttributeError] at [self.selected.move], before anything is written,
    so the state is left as it was.  The handlers [move_region],
    [resize_region] and [deselect_region] test for the missing selection
    ([guarded_handlers_ignore_no_selection]); [drag] does not. *)
Theorem drag_without_selection_raises ev s :
  selected s = None →
  Representation.drag ev s =
    (Raises (AttributeError "'NoneType' object has no attribute 'move'"), s).
Proof.
  intros H.
  unfold Representation.drag, Representation.selected_region, bind, read.
  destruct (selected_data s). by rewrite H.
Qed.

Lemma drag_without_selection_raises_witness :
  selected scenario = None ∧
  Representation.drag (pointer 9 9) scenario =
    (Raises (AttributeError "'NoneType' object has no attribute 'move'"),
     scenario).
Proof.
  split; [reflexivity|].
  apply (drag_without_selection_raises (pointer 9 9) scenario). reflexivity.
Defined.

(** C6, as amended.  [deselect_region] always returns.  With a region
    selected it sets the selection to none, empties the handle [_sel] of
    the rectangle that was hit and publishes the empty status text; with
    nothing selected it changes nothing.  In both cases the drag anchor
    [selected_data] is left as it was, and a second call changes nothing
    more. *)
Theorem deselect_region_clears_selection ev s :
  let s' := match selected s with
            | None => s
            | Some _ => set_cur_selected EmptyString
                          (set_sel None (set_selected None s))
            end in
  Representation.deselect_region ev s = (Returns tt, s') ∧
  selected s' = None ∧
  selected_data s' = selected_data s ∧
  Representation.deselect_region ev s' = (Returns tt, s').
Proof.
  unfold Representation.deselect_region, bind, read, modify.
  destruct (selected s) eqn:E; simpl; [done|]. by rewrite E.
Qed.

(** C6, counterexample: after a press at [(15, 15)] has selected the
    region, [deselect_region] clears the selection and leaves the drag
    anchor at [(15, 15)], not at the origin [drag_stop] resets it to. *)
Lemma deselect_region_keeps_drag_anchor :
  let s' := (Representation.deselect_region (key "Escape" 0)
               scenario_selected).2 in
  selected scenario_selected = Some 0%nat ∧
  selected s' = None ∧
  selected_data s' = (15, 15) ∧
  selected_data s' ≠ (0, 0).
Proof. vm_compute. repeat split; congruence. Qed.

(** C3.  [Representation] has no attribute [resize_extended].  When
    [select_region] hits the extended rectangle of a region, it records
    the selection, unbinds ["<Left>"] and raises [AttributeError] at
    [self.resize_extended]: no arrow key is bound to a handler that
    resizes the extended rectangle alone, the drag anchor is not recorded
    and no status text is published. *)
Theorem select_extended_rectangle_raises ev s e rid r :
  cv_find_closest (ev_x ev) (ev_y ev) (canvas s) = Some e →
  "nodrag" ∉ from_option it_tags [] (cv_items (canvas s) !! e) →
  images s !! pretty e = Some rid →
  objs s !! rid = Some r →
  rg_e r = e →
  handler_attr "resize_extended" = None ∧
  Representation.select_region ev s =
    (Raises (AttributeError
       "'Representation' object has no attribute 'resize_extended'"),
     set_bindings (delete "<Left>" (bindings s))
       (set_selected (Some rid) (set_sel (Some e) s))).
Proof.
  intros Hhit Htags Himg Hr He. split; [reflexivity|].
  unfold Representation.select_region.
  erewrite bind_returns; [| unfold read; rewrite Hhit; reflexivity ].
  erewrite bind_returns; [| reflexivity ].
  rewrite bool_decide_eq_false_2 by done.
  run.
  erewrite bind_returns; [| reflexivity ].
  erewrite bind_returns; [| simpl; rewrite Himg; reflexivity ].
  run.
  unfold Representation.selected_region.
  erewrite bind_returns; cycle 1.
  { erewrite bind_returns; [| reflexivity ]. simpl.
    erewrite bind_returns; [| apply deref_region_run; simpl; exact Hr ].
    reflexivity. }
  simpl. run.
  rewrite bool_decide_eq_true_2 by congruence.
  reflexivity.
Qed.

Lemma select_extended_rectangle_raises_witness :
  cv_find_closest 9 9 (canvas scenario) = Some 2 ∧
  Representation.dispatch "<Button-1>" (pointer 9 9) scenario =
    ([AttributeError
        "'Representation' object has no attribute 'resize_extended'"],
     set_bindings (delete "<Left>" (bindings scenario))
       (set_selected (Some 0%nat) (set_sel (Some 2) scenario))).
Proof.
  split; [reflexivity|].
  unfold Representation.dispatch.
  change (default [] (bindings scenario !! "<Button-1>")) with [h_select_region].
  cbn [foldl Representation.run_handler fst snd].
  destruct (select_extended_rectangle_raises (pointer 9 9) scenario 2 0%nat
    {| rg_config := scenario_item; rg_inputs := InList ["a"];
       rg_frame := [("x", 10); ("y", 10); ("width", 20); ("height", 20)];
       rg_width := 20; rg_height := 20; rg_coords := (10, 10);
       rg_extended_edges := 0%nat; rg_touch := (20, 20);
       rg_extended := (24, 24); rg_e := 2; rg_t := 3 |}) as [_ ->];
    try reflexivity.
  vm_compute. intros H. apply elem_of_nil in H. exact H.
Defined.
(** ** The status line *)

(** C8.  For a selected region whose bindings are the analog-stick
    group the label is ["Analog Stick"], and for the list [["x"; "y"]]
    it is ["X, Y"]; [statusbar_updater] publishes that label followed by
    the bounding box of the rectangle that was hit. *)
Theorem status_label_group_match s rid r i it label :
  selected s = Some rid →
  objs s !! rid = Some r →
  (rg_inputs r, label) ∈
    [ (InDict [ ("up", "analogStickUp"); ("down", "analogStickDown");
                ("left", "analogStickLeft"); ("right", "analogStickRight") ],
       "Analog Stick");
      (InList ["x"; "y"], "X, Y") ] →
  _sel s = Some i →
  cv_items (canvas s) !! i = Some it →
  Representation.status_label s = (Returns label, s) ∧
  Representation.statusbar_updater s =
    (Returns tt,
     set_cur_selected (Representation.status_line label (item_bbox it)) s).
Proof.
  intros Hsel Hr Hin Hi Hit.
  assert (Hlabel : Representation.status_label s = (Returns label, s)).
  { unfold Representation.status_label, try_except.
    unfold BUTTON_NAMES, Representation.next_group,
      Representation.fallback_label, Representation.selected_region,
      bind, read, deref_region, ret, raise.
    apply elem_of_cons in Hin as [Hin|Hin];
      [| apply list_elem_of_singleton in Hin ];
      injection Hin as Hinputs ->;
      repeat (rewrite ?Hsel, ?Hr, ?Hinputs; cbn); reflexivity. }
  split; [exact Hlabel|].
  unfold Representation.statusbar_updater.
  erewrite bind_returns; [| exact Hlabel ].
  unfold Representation.bbox_sel.
  erewrite bind_returns; cycle 1.
  { erewrite bind_returns; [| reflexivity ]. rewrite Hi.
    apply bbox_unpack_run. exact Hit. }
  reflexivity.
Qed.

Lemma status_label_group_match_witness :
  selected pads_stick_selected = Some 0%nat ∧
  _sel pads_stick_selected = Some 3 ∧
  Representation.status_label pads_stick_selected =
    (Returns "Analog Stick", pads_stick_selected) ∧
  cur_selected (Representation.statusbar_updater pads_stick_selected).2 =
    "Analog Stick | X: 10 Y: 10 | W: 20 H: 20".
Proof.
  split; [reflexivity|]. split; [reflexivity|].
  destruct (status_label_group_match pads_stick_selected 0%nat
    {| rg_config := stick_item;
       rg_inputs := InDict
         [ ("up", "analogStickUp"); ("down", "analogStickDown");
           ("left", "analogStickLeft"); ("right", "analogStickRight") ];
       rg_frame := [("x", 10); ("y", 10); ("width", 20); ("height", 20)];
       rg_width := 20; rg_height := 20; rg_coords := (10, 10);
       rg_extended_edges := 0%nat; rg_touch := (20, 20);
       rg_extended := (24, 24); rg_e := 2; rg_t := 3 |}
    3 {| it_x := 10; it_y := 10; it_image := (20, 20); it_tags := [] |}
    "Analog Stick") as [Hlabel Hline]; try reflexivity.
  - apply elem_of_cons. left. reflexivity.
  - split; [exact Hlabel|]. rewrite Hline. reflexivity.
Defined.

(** The two labels on the document with two pads. *)
Example status_line_stick :
  cur_selected pads_stick_selected = "Analog Stick | X: 10 Y: 10 | W: 20 H: 20".
Proof. reflexivity. Qed.

Example status_line_xy :
  cur_selected pads_xy_selected = "X, Y | X: 100 Y: 100 | W: 30 H: 30".
Proof. reflexivity. Qed.
(** ** Which computations publish a status text *)

Lemma keeps_status_ret {A} (a : A) : keeps_status (ret a).
Proof. by intros s. Qed.

Lemma keeps_status_raise {A} e : keeps_status (@raise A e).
Proof. by intros s. Qed.

Lemma keeps_status_read {A} (f : state → A) : keeps_status (read f).
Proof. by intros s. Qed.

Lemma keeps_status_lift {A} (o : outcome A) : keeps_status (lift o).
Proof. by intros s. Qed.

Lemma keeps_status_bind {A B} (m : M A) (k : A → M B) :
  keeps_status m → (∀ a, keeps_status (k a)) → keeps_status (bind m k).
Proof.
  intros Hm Hk s. unfold bind. specialize (Hm s).
  destruct (m s) as [[a|e] s1]; simpl in *; [|done].
  by rewrite Hk.
Qed.

Lemma keeps_status_deref_region rid : keeps_status (deref_region rid).
Proof. intros s. unfold deref_region. by destruct (objs s !! rid). Qed.

Lemma keeps_status_bbox_unpack i : keeps_status (bbox_unpack i).
Proof. intros s. unfold bbox_unpack. by destruct (cv_bbox i (canvas s)). Qed.

Lemma keeps_status_images_pop k : keeps_status (images_pop k).
Proof. intros s. unfold images_pop. by destruct (images s !! k). Qed.

Lemma keeps_status_images_update k rid : keeps_status (images_update k rid).
Proof. by intros s. Qed.

Lemma keeps_status_delete_item i : keeps_status (delete_item i).
Proof. by intros s. Qed.

Lemma keeps_status_update_region rid f : keeps_status (update_region rid f).
Proof. by intros s. Qed.

Lemma keeps_status_create_image x y im tags :
  keeps_status (create_image x y im tags).
Proof. by intros s. Qed.

Lemma keeps_status_move i dx dy : keeps_status (move i dx dy).
Proof. by intros s. Qed.

Create HintDb status discriminated.
#[local] Hint Resolve keeps_status_ret keeps_status_raise keeps_status_read
  keeps_status_lift keeps_status_deref_region keeps_status_bbox_unpack
  keeps_status_images_pop keeps_status_images_update keeps_status_delete_item
  keeps_status_update_region keeps_status_create_image keeps_status_move
  : status.

Ltac keeps_status_steps :=
  repeat first
    [ apply keeps_status_bind; [| intros ? ]
    | match goal with
      | |- keeps_status (match ?x with _ => _ end) => destruct x
      end
    | solve [ auto with status ] ].

Lemma keeps_status_resize rid dw dh which :
  keeps_status (Region.resize rid dw dh which).
Proof. unfold Region.resize. keeps_status_steps. Qed.

Lemma keeps_status_resize_region ev :
  keeps_status (Representation.resize_region ev).
Proof.
  unfold Representation.resize_region.
  apply keeps_status_bind; [auto with status|]. intros [rid|]; [|auto with status].
  repeat case_match; auto using keeps_status_resize with status.
Qed.

(** C9.  A modifier+arrow event while a region is selected: the two
    handlers bound to the key run in the order they were bound, so
    [move_region] publishes the status text first and [resize_region]
    changes the geometry after it.  The core rectangle is one pixel wider
    and the status text still reads the old width.  [resize_region] never
    publishes a status text. *)
Theorem shift_arrow_leaves_status_stale :
  let s := scenario_selected in
  let out := Representation.dispatch "<Right>" (key "Right" 1) s in
  bindings s !! "<Right>" = Some [h_move_region; h_resize_region] ∧
  out.1 = [] ∧
  core_bbox_of 0 s = Some (10, 10, 30, 30) ∧
  core_bbox_of 0 out.2 = Some (10, 10, 31, 30) ∧
  cur_selected s = "A | X: 10 Y: 10 | W: 20 H: 20" ∧
  cur_selected out.2 = "A | X: 10 Y: 10 | W: 20 H: 20" ∧
  ∀ ev s0, cur_selected (Representation.resize_region ev s0).2 =
           cur_selected s0.
Proof.
  repeat split; try reflexivity.
  intros ev s0. apply keeps_status_resize_region.
Qed.

(** The handle kept in [_sel] names the item the resize deleted: the
    next plain arrow moves the region and then fails to publish. *)
Example arrow_after_resize_fails :
  let s := (Representation.dispatch "<Right>" (key "Right" 1)
              scenario_selected).2 in
  (Representation.dispatch "<Right>" (key "Right" 0) s).1 =
    [TypeError "cannot unpack non-iterable NoneType object"].
Proof. reflexivity. Qed.

(** A plain arrow with a valid handle moves and then publishes. *)
Example plain_arrow_republishes :
  let out := Representation.dispatch "<Right>" (key "Right" 0)
               scenario_selected in
  out.1 = [] ∧ cur_selected out.2 = "A | X: 11 Y: 10 | W: 20 H: 20".
Proof. split; reflexivity. Qed.
(** ** Construction of the [Representation] *)

(** Loading the background reads the state and leaves it as it is. *)
Lemma load_image_state key size s :
  (Representation.load_image key size s).2 = s.
Proof.
  unfold Representation.load_image, Representation.zfile_read,
    Representation.first_of, bind, read, lift, subscript, ret, raise.
  repeat case_match; simplify_eq; done.
Qed.

(** In archive mode a reference that names no member of the archive is a
    [KeyError]. *)
Lemma load_image_missing_member key ref size s :
  OTYPE (master s) ≠ "dir" →
  dict_get key (assets s) = Some ref →
  dict_get ref (zfile (master s)) = None →
  Representation.load_image key size s = (Raises (KeyError ref), s).
Proof.
  intros Hmode Hkey Hmember.
  unfold Representation.load_image, Representation.zfile_read,
    bind, read, subscript, ret, raise.
  destruct (dict_mem "resizable" (assets s));
    (destruct (decide (OTYPE (master s) = "dir")); [done|]);
    rewrite Hkey; simpl; rewrite Hmember; done.
Qed.

(** C7, as amended.  Over an asset table that has a first key, when
    loading the background raises [KeyError], construction raises
    [SystemExit] with the message ["Couldn't get the correct key!"]; when
    it raises [PDFPageCountError], with the message
    ["Couldn't get PDF information! Check your Poppler version."]; any
    other exception passes through.  In each case nothing is retried: the
    attributes assigned before the load are all that has changed, no
    region is constructed and no handler is bound. *)
Theorem init_load_failure_is_fatal items ms ee assets s key rest e s' :
  dict_keys assets = key :: rest →
  Representation.load_image key (dict_values ms)
    (with_attributes items ms ee assets s) = (Raises e, s') →
  Representation.init items ms ee assets s =
    (Raises (match e with
             | KeyError _ => SystemExit "Couldn't get the correct key!"
             | PDFPageCountError => SystemExit
                 "Couldn't get PDF information! Check your Poppler version."
             | _ => e
             end),
     with_attributes items ms ee assets s).
Proof.
  intros Hkeys Hload.
  pose proof (load_image_state key (dict_values ms)
                (with_attributes items ms ee assets s)) as Hstate.
  rewrite Hload in Hstate. simpl in Hstate. subst s'.
  unfold Representation.init.
  do 11 (erewrite bind_returns; [| reflexivity ]).
  rewrite Hkeys.
  erewrite bind_returns; [| reflexivity ].
  apply bind_raises.
  unfold try_except. fold (with_attributes items ms ee assets s).
  rewrite Hload.
  destruct e; reflexivity.
Qed.

Lemma init_load_failure_is_fatal_witness :
  let s := boot scenario_master scenario_heap in
  let assets := [("small", "missing.png")] in
  let s0 := with_attributes [scenario_item] scenario_size 0%nat assets s in
  dict_keys assets = ["small"] ∧
  Representation.load_image "small" (dict_values scenario_size) s0 =
    (Raises (KeyError "missing.png"), s0) ∧
  Representation.init [scenario_item] scenario_size 0%nat assets s =
    (Raises (SystemExit "Couldn't get the correct key!"), s0).
Proof.
  split; [reflexivity|]. split; [vm_compute; reflexivity|].
  apply (init_load_failure_is_fatal [scenario_item] scenario_size 0%nat
           [("small", "missing.png")] (boot scenario_master scenario_heap)
           "small" [] (KeyError "missing.png")
           (with_attributes [scenario_item] scenario_size 0%nat
              [("small", "missing.png")] (boot scenario_master scenario_heap)));
    [reflexivity | vm_compute; reflexivity].
Defined.

(** C7, counterexample: when the renderer fails, the message names
    Poppler, not a renderer. *)
Lemma init_failure_messages_differ :
  let s := boot scenario_master scenario_heap in
  (Representation.init [scenario_item] scenario_size 0%nat
     [("resizable", "skin.pdf")] s).1 =
    Raises (SystemExit
      "Couldn't get PDF information! Check your Poppler version.") ∧
  (Representation.init [scenario_item] scenario_size 0%nat
     [("resizable", "skin.pdf")] s).1 ≠
    Raises (SystemExit
      "Couldn't get PDF information! Check your renderer version.").
Proof.
  split; [vm_compute; reflexivity|].
  vm_compute; discriminate.
Qed.

(** The first key of the asset table is taken before the guarded block:
    over an empty table construction raises [StopIteration] there. *)
Lemma init_empty_assets items ms ee s :
  Representation.init items ms ee [] s =
    (Raises StopIteration, with_attributes items ms ee [] s).
Proof.
  unfold Representation.init.
  do 11 (erewrite bind_returns; [| reflexivity ]).
  apply bind_raises. reflexivity.
Qed.

(** ** Dictionaries *)

Lemma dict_mem_true {V} k (d : dict V) :
  dict_mem k d = true ↔ is_Some (dict_get k d).
Proof. unfold dict_mem. apply bool_decide_eq_true. Qed.

Lemma dict_mem_false {V} k (d : dict V) :
  dict_mem k d = false ↔ dict_get k d = None.
Proof.
  unfold dict_mem. rewrite bool_decide_eq_false.
  rewrite <- eq_None_not_Some. done.
Qed.

Lemma dict_get_set {V} k k' (v : V) d :
  dict_get k (dict_set k' v d) =
    if decide (k' = k) then Some v else dict_get k d.
Proof.
  induction d as [|[k0 v0] d IH]; simpl.
  - by repeat case_decide.
  - repeat (case_decide; simpl; simplify_eq); done.
Qed.

Lemma dict_get_keys {V} k (d : dict V) :
  k ∈ dict_keys d → is_Some (dict_get k d).
Proof.
  unfold dict_keys. induction d as [|[k0 v0] d IH]; simpl.
  - intros H. by apply elem_of_nil in H.
  - intros [->|H]%elem_of_cons; case_decide; eauto; done.
Qed.

Lemma set_heap_id s : set_heap (heap s) s = s.
Proof. by destruct s. Qed.

(** ** [Region.__init__]: the margins *)

(** The loop over the default margins: the override keeps what it names
    and receives the default of every key of the loop it does not name;
    nothing else in the state changes. *)
Lemma fill_edges_spec mine rep rd ks :
  ∀ s d,
    heap s !! mine = Some d →
    heap s !! rep = Some rd →
    (∀ k, k ∈ ks → is_Some (dict_get k rd)) →
    ∃ d',
      for_each ks (Region.fill_edge mine rep) s =
        (Returns tt, set_heap (<[mine := d']> (heap s)) s) ∧
      (mine = rep → d' = d) ∧
      ∀ k, dict_get k d' =
             match dict_get k d with
             | Some v => Some v
             | None => if decide (k ∈ ks) then dict_get k rd else None
             end.
Proof.
  induction ks as [|key ks IH]; intros s d Hmine Hrep Hks.
  - exists d. split; [|split; [done|]].
    + simpl. unfold ret. by rewrite insert_id, set_heap_id.
    + intros k. destruct (dict_get k d); [done|].
      case_decide as Hin; [|done]. by apply elem_of_nil in Hin.
  - simpl. unfold Region.fill_edge at 1.
    destruct (dict_mem key d) eqn:Hmem.
    + destruct (IH s d Hmine Hrep) as (d' & Hrun & Halias & Hget).
      { intros k Hk. apply Hks. by apply elem_of_cons; right. }
      exists d'. split; [|split; [done|]].
      * erewrite bind_returns; [exact Hrun|].
        erewrite bind_returns; [| by apply deref_dict_run ].
        by rewrite Hmem.
      * intros k. rewrite Hget. destruct (dict_get k d) eqn:Hk; [done|].
        apply dict_mem_true in Hmem as [v Hv].
        destruct (decide (k ∈ ks)) as [Hin|Hnin].
        -- rewrite decide_True by (apply elem_of_cons; by right). done.
        -- rewrite decide_False; [done|].
           intros [->|?]%elem_of_cons; [congruence|done].
    + assert (Hne : mine ≠ rep).
      { intros ->. rewrite Hmine in Hrep. injection Hrep as ->.
        apply dict_mem_false in Hmem.
        destruct (Hks key) as [v Hv]; [by apply elem_of_cons; left|].
        congruence. }
      destruct (Hks key) as [v Hv]; [by apply elem_of_cons; left|].
      destruct (IH (set_heap (<[mine := dict_set key v d]> (heap s)) s)
                  (dict_set key v d)) as (d' & Hrun & _ & Hget).
      { simpl. apply lookup_insert_eq. }
      { simpl. by rewrite lookup_insert_ne. }
      { intros k Hk. apply Hks. by apply elem_of_cons; right. }
      exists d'. split; [|split; [done|]].
      * erewrite bind_returns; cycle 1.
        { erewrite bind_returns; [| by apply deref_dict_run ].
          rewrite Hmem.
          erewrite bind_returns; [| by apply deref_dict_run ].
          rewrite Hv. reflexivity. }
        rewrite Hrun. simpl. by rewrite insert_insert_eq.
      * intros k. rewrite Hget, dict_get_set.
        apply dict_mem_false in Hmem.
        destruct (decide (key = k)) as [->|Hk].
        -- rewrite Hmem, Hv. rewrite decide_True; [done|].
           by apply elem_of_cons; left.
        -- destruct (dict_get k d); [done|].
           destruct (decide (k ∈ ks)) as [Hin|Hnin].
           ++ rewrite decide_True by (apply elem_of_cons; by right). done.
           ++ rewrite decide_False; [done|].
              intros [->|?]%elem_of_cons; done.
Qed.
(** Margins resolved from margins that are not negative are not
    negative. *)
Lemma resolved_nonneg (ov dflt resolved : dict Z) :
  margins_nonneg ov → margins_nonneg dflt →
  (∀ k, dict_get k resolved =
          match dict_get k ov with
          | Some v => Some v
          | None => dict_get k dflt
          end) →
  margins_nonneg resolved.
Proof.
  intros Hov Hdflt Hget k v. rewrite Hget.
  destruct (dict_get k ov) eqn:E; [intros [= <-]|]; eauto.
Qed.

(** What the constructor builds from an item that has its keys and a
    frame of a width and height that are not negative, over default
    margins that name the four edges, when no margin is negative.  [ov]
    is the item's own dictionary of margins, empty for an item that has
    none. *)
Lemma init_spec item s inp frame x y w h dflt ov :
  cfg_inputs item = Some inp →
  cfg_frame item = Some frame →
  dict_get "width" frame = Some w →
  dict_get "height" frame = Some h →
  dict_get "x" frame = Some x →
  dict_get "y" frame = Some y →
  heap s !! extended_edges s = Some dflt →
  (∀ k, k ∈ ["top"; "bottom"; "left"; "right"] → is_Some (dict_get k dflt)) →
  match cfg_extendedEdges item with
  | Some mine => heap s !! mine = Some ov
  | None => ov = []
  end →
  0 ≤ w → 0 ≤ h →
  margins_nonneg dflt → margins_nonneg ov →
  ∃ s' r resolved top bottom left right,
    Region.init item s = (Returns (length (objs s)), s') ∧
    objs s' = objs s ++ [r] ∧
    rg_config r = item ∧
    rg_extended_edges r = default (extended_edges s) (cfg_extendedEdges item) ∧
    extended_edges s' = extended_edges s ∧
    heap s' = <[rg_extended_edges r := resolved]> (heap s) ∧
    (cfg_extendedEdges item = None → resolved = dflt) ∧
    (∀ k, dict_get k resolved =
            match dict_get k ov with
            | Some v => Some v
            | None => dict_get k dflt
            end) ∧
    dict_get "top" resolved = Some top ∧
    dict_get "bottom" resolved = Some bottom ∧
    dict_get "left" resolved = Some left ∧
    dict_get "right" resolved = Some right ∧
    cv_items (canvas s') !! rg_e r =
      Some {| it_x := x - left; it_y := y - top;
              it_image := (left + w + right, top + h + bottom);
              it_tags := [] |} ∧
    cv_items (canvas s') !! rg_t r =
      Some {| it_x := x; it_y := y; it_image := (w, h); it_tags := [] |} ∧
    (canvas_fresh (canvas s) → region_ok (length (objs s)) s').
Proof.
  intros Hinp Hframe Hw Hh Hx Hy Hdflt Hfour Hov Hw0 Hh0 Hdflt0 Hov0.
  assert (Hedges : ∃ s1 resolved,
    let edges := default (extended_edges s) (cfg_extendedEdges item) in
    s1 = set_heap (<[edges := resolved]> (heap s)) s ∧
    (cfg_extendedEdges item = None → resolved = dflt) ∧
    (∀ k, dict_get k resolved =
            match dict_get k ov with
            | Some v => Some v
            | None => dict_get k dflt
            end) ∧
    match cfg_extendedEdges item with
    | Some mine =>
        (let* rd := deref_dict (extended_edges s) in
         for_each (dict_keys rd)
           (Region.fill_edge mine (extended_edges s)) ;;
         ret mine) s = (Returns mine, s1)
    | None => True
    end).
  { destruct (cfg_extendedEdges item) as [mine|] eqn:Hmine.
    - destruct (fill_edges_spec mine (extended_edges s) dflt (dict_keys dflt)
                  s ov Hov Hdflt) as (d' & Hrun & _ & Hget).
      { intros k. apply dict_get_keys. }
      eexists _, d'. split; [reflexivity|]. split; [done|]. split.
      + intros k. rewrite Hget. destruct (dict_get k ov); [done|].
        case_decide as Hin; [done|].
        destruct (dict_get k dflt) eqn:Hk; [|done].
        exfalso. apply Hin. unfold dict_keys.
        clear -Hk. induction dflt as [|[k0 v0] d IH]; simpl in *; [done|].
        case_decide; [subst; by apply elem_of_cons; left|].
        apply elem_of_cons; right. by apply IH.
      + erewrite bind_returns; [| by apply deref_dict_run ].
        erewrite bind_returns; [| exact Hrun ]. reflexivity.
    - subst ov. exists s, dflt. simpl.
      rewrite insert_id, set_heap_id by done. done. }
  destruct Hedges as (s1 & resolved & Hs1 & Hnone & Hget & Hrun).
  assert (Hres : ∀ k, k ∈ ["top"; "bottom"; "left"; "right"] →
                      is_Some (dict_get k resolved)).
  { intros k Hk. rewrite Hget. destruct (dict_get k ov); eauto. }
  destruct (Hres "top") as [top Htop]; [set_solver|].
  destruct (Hres "bottom") as [bottom Hbottom]; [set_solver|].
  destruct (Hres "left") as [left Hleft]; [set_solver|].
  destruct (Hres "right") as [right Hright]; [set_solver|].
  pose proof (resolved_nonneg ov dflt resolved Hov0 Hdflt0 Hget) as Hres0.
  pose proof (Hres0 _ _ Htop). pose proof (Hres0 _ _ Hbottom).
  pose proof (Hres0 _ _ Hleft). pose proof (Hres0 _ _ Hright).
  exists (set_images
            (<[pretty (cv_next (canvas s)) := length (objs s)]>
               (<[pretty (cv_next (canvas s) + 1) := length (objs s)]>
                  (images s)))
            (set_objs (objs s ++
               [ {| rg_config := item; rg_inputs := inp; rg_frame := frame;
                    rg_width := w; rg_height := h; rg_coords := (x, y);
                    rg_extended_edges :=
                      default (extended_edges s) (cfg_extendedEdges item);
                    rg_touch := (w, h);
                    rg_extended := (left + w + right, top + h + bottom);
                    rg_e := cv_next (canvas s);
                    rg_t := cv_next (canvas s) + 1 |} ])
               (set_canvas
                  (cv_create_image x y (w, h) []
                     (cv_create_image (x - left) (y - top)
                        (left + w + right, top + h + bottom) []
                        (canvas s)).2).2 s1))).
  eexists _, resolved, top, bottom, left, right.
  split.
  { unfold Region.init.
    rewrite Hinp. run. rewrite Hframe. run. rewrite Hw. run.
    rewrite Hh. run. rewrite Hx. run. rewrite Hy. run. run.
    erewrite bind_returns; cycle 1.
    { instantiate (1 := s1).
      instantiate (1 := default (extended_edges s) (cfg_extendedEdges item)).
      destruct (cfg_extendedEdges item); simpl.
      - exact Hrun.
      - specialize (Hnone eq_refl). subst. simpl.
        rewrite insert_id, set_heap_id by done. reflexivity. }
    erewrite bind_returns; cycle 1.
    { apply deref_dict_run. subst s1. simpl. apply lookup_insert_eq. }
    rewrite Htop. run. rewrite Hbottom. run. rewrite Hleft. run.
    rewrite Hright. run.
    erewrite bind_returns; cycle 1.
    { unfold lift. rewrite Image_new_nonneg by lia. reflexivity. }
    erewrite bind_returns; cycle 1.
    { unfold lift. rewrite Image_new_nonneg by lia. reflexivity. }
    simpl.
    run. run. run. run. run.
    subst s1. reflexivity. }
  subst s1. simpl.
  repeat split; try done.
  - cbn [rg_e]. rewrite lookup_insert_ne by lia. apply lookup_insert_eq.
  - cbn [rg_t]. apply lookup_insert_eq.
  - intros Hf. eexists. split; [by apply list_lookup_middle|].
    simpl.
    split; [rewrite lookup_insert_ne by lia; rewrite lookup_insert_eq; eauto|].
    split; [rewrite lookup_insert_eq; eauto|].
    split; [lia|].
    split; [rewrite lookup_insert_eq; eauto|].
    split.
    { rewrite lookup_insert_ne by (intros ?%(inj pretty); lia).
      rewrite lookup_insert_eq. eauto. }
    unfold canvas_fresh. simpl.
    apply map_Forall_insert_2; [lia|].
    apply map_Forall_insert_2; [lia|].
    eapply map_Forall_impl; [exact Hf|]. simpl. intros. lia.
Qed.
(** C2.  Construction of a region from an item that has its keys and a
    frame of a width and height that are not negative, over default
    margins that name the four edges, when no margin is negative,
    returns; every edge the item's own dictionary [ov] names resolves to
    the value given there, every other edge to the default, and with no
    dictionary of its own ([ov] empty) all four are the defaults.  The
    extended rectangle is laid out with the resolved margins. *)
Theorem margin_resolution item s inp frame x y w h dflt ov :
  cfg_inputs item = Some inp →
  cfg_frame item = Some frame →
  dict_get "width" frame = Some w →
  dict_get "height" frame = Some h →
  dict_get "x" frame = Some x →
  dict_get "y" frame = Some y →
  heap s !! extended_edges s = Some dflt →
  (∀ k, k ∈ ["top"; "bottom"; "left"; "right"] → is_Some (dict_get k dflt)) →
  match cfg_extendedEdges item with
  | Some mine => heap s !! mine = Some ov
  | None => ov = []
  end →
  0 ≤ w → 0 ≤ h →
  margins_nonneg dflt → margins_nonneg ov →
  ∃ s' r resolved top bottom left right,
    Region.init item s = (Returns (length (objs s)), s') ∧
    objs s' !! length (objs s) = Some r ∧
    heap s' !! rg_extended_edges r = Some resolved ∧
    (∀ k, dict_get k resolved =
            match dict_get k ov with
            | Some v => Some v
            | None => dict_get k dflt
            end) ∧
    dict_get "top" resolved = Some top ∧
    dict_get "bottom" resolved = Some bottom ∧
    dict_get "left" resolved = Some left ∧
    dict_get "right" resolved = Some right ∧
    extended_bbox_of (length (objs s)) s' =
      Some (x - left, y - top,
            x - left + (left + w + right), y - top + (top + h + bottom)) ∧
    core_bbox_of (length (objs s)) s' = Some (x, y, x + w, y + h).
Proof.
  intros Hinp Hframe Hw Hh Hx Hy Hdflt Hfour Hov Hw0 Hh0 Hdflt0 Hov0.
  destruct (init_spec item s inp frame x y w h dflt ov)
    as (s' & r & resolved & top & bottom & left & right & Hrun & Hobjs & _ &
        _ & _ & Hheap & _ & Hget & Htop & Hbottom & Hleft & Hright & He & Ht &
        _);
    try done.
  exists s', r, resolved, top, bottom, left, right.
  assert (Hr : objs s' !! length (objs s) = Some r).
  { rewrite Hobjs. apply list_lookup_middle. done. }
  repeat split; try done.
  - rewrite Hheap. apply lookup_insert_eq.
  - unfold extended_bbox_of, cv_bbox. rewrite Hr. simpl. by rewrite He.
  - unfold core_bbox_of, cv_bbox. rewrite Hr. simpl. by rewrite Ht.
Qed.

Ltac four_edges :=
  let k := fresh "k" in
  let Hk := fresh "Hk" in
  intros k Hk;
  repeat (apply elem_of_cons in Hk as [->|Hk]; [vm_compute; eauto|]);
  by apply elem_of_nil in Hk.

(** The margins of a given dictionary are not negative. *)
Ltac margins_nonneg :=
  let k := fresh "k" in
  let v := fresh "v" in
  let H := fresh "H" in
  intros k v H; simpl in H; repeat case_decide; simplify_eq; lia.

Lemma margin_resolution_witness :
  ∃ s' r resolved,
    Region.init xy_item pads_before_xy = (Returns 1%nat, s') ∧
    objs s' !! 1%nat = Some r ∧
    heap s' !! rg_extended_edges r = Some resolved ∧
    dict_get "top" resolved = Some 5 ∧
    dict_get "bottom" resolved = Some 2 ∧
    dict_get "left" resolved = Some 2 ∧
    dict_get "right" resolved = Some 2 ∧
    extended_bbox_of 1 s' = Some (98, 95, 132, 132).
Proof.
  destruct (margin_resolution xy_item pads_before_xy (InList ["x"; "y"])
              [("x", 100); ("y", 100); ("width", 30); ("height", 30)]
              100 100 30 30
              [("top", 2); ("bottom", 2); ("left", 2); ("right", 2)]
              [("top", 5)])
    as (s' & r & resolved & top & bottom & left & right & Hrun & Hr & Hheap &
        Hget & Htop & Hbottom & Hleft & Hright & Hext & _);
    try reflexivity; try lia; try margins_nonneg.
  { four_edges. }
  exists s', r, resolved.
  rewrite Hget in Htop, Hbottom, Hleft, Hright.
  injection Htop as <-. injection Hbottom as <-.
  injection Hleft as <-. injection Hright as <-.
  rewrite !Hget.
  repeat split; try assumption; reflexivity.
Defined.

(** C10.  Construction, from an item that has its keys and a frame of a
    width and height that are not negative, when no margin is negative,
    writes into the dictionary the item supplies: the region refers to
    that same dictionary, which afterwards also holds the default of
    every edge it did not name.  A region whose item has no
    [extendedEdges] refers to the dictionary of default margins of the
    representation itself; no dictionary is created or changed. *)
Theorem init_shares_margin_dictionaries item s inp frame x y w h dflt ov :
  cfg_inputs item = Some inp →
  cfg_frame item = Some frame →
  dict_get "width" frame = Some w →
  dict_get "height" frame = Some h →
  dict_get "x" frame = Some x →
  dict_get "y" frame = Some y →
  heap s !! extended_edges s = Some dflt →
  (∀ k, k ∈ ["top"; "bottom"; "left"; "right"] → is_Some (dict_get k dflt)) →
  match cfg_extendedEdges item with
  | Some mine => heap s !! mine = Some ov
  | None => ov = []
  end →
  0 ≤ w → 0 ≤ h →
  margins_nonneg dflt → margins_nonneg ov →
  ∃ s' r,
    Region.init item s = (Returns (length (objs s)), s') ∧
    objs s' !! length (objs s) = Some r ∧
    rg_config r = item ∧
    match cfg_extendedEdges item with
    | Some mine =>
        rg_extended_edges r = mine ∧
        ∃ merged,
          heap s' !! mine = Some merged ∧
          ∀ k, dict_get k merged =
                 match dict_get k ov with
                 | Some v => Some v
                 | None => dict_get k dflt
                 end
    | None =>
        rg_extended_edges r = extended_edges s' ∧
        heap s' = heap s
    end.
Proof.
  intros Hinp Hframe Hw Hh Hx Hy Hdflt Hfour Hov Hw0 Hh0 Hdflt0 Hov0.
  destruct (init_spec item s inp frame x y w h dflt ov)
    as (s' & r & resolved & top & bottom & left & right & Hrun & Hobjs &
        Hcfg & Hedges & Hrep & Hheap & Hnone & Hget & _);
    try done.
  exists s', r.
  split; [done|]. split; [rewrite Hobjs; by apply list_lookup_middle|].
  split; [done|].
  destruct (cfg_extendedEdges item) as [mine|]; simpl in Hedges.
  - split; [done|]. exists resolved. split; [|done].
    rewrite Hheap, Hedges. apply lookup_insert_eq.
  - split; [congruence|].
    rewrite Hheap, Hedges, (Hnone eq_refl). by apply insert_id.
Qed.

Lemma init_shares_margin_dictionaries_witness :
  heap pads_before_xy !! 1%nat = Some [("top", 5)] ∧
  cfg_extendedEdges xy_item = Some 1%nat ∧
  ∃ s' r,
    Region.init xy_item pads_before_xy = (Returns 1%nat, s') ∧
    objs s' !! 1%nat = Some r ∧
    rg_extended_edges r = 1%nat ∧
    ∃ merged,
      heap s' !! 1%nat = Some merged ∧
      dict_get "top" merged = Some 5 ∧
      dict_get "bottom" merged = Some 2 ∧
      dict_get "left" merged = Some 2 ∧
      dict_get "right" merged = Some 2.
Proof.
  split; [reflexivity|]. split; [reflexivity|].
  destruct (init_shares_margin_dictionaries xy_item pads_before_xy
              (InList ["x"; "y"])
              [("x", 100); ("y", 100); ("width", 30); ("height", 30)]
              100 100 30 30
              [("top", 2); ("bottom", 2); ("left", 2); ("right", 2)]
              [("top", 5)])
    as (s' & r & Hrun & Hr & _ & Hedges & merged & Hheap & Hget);
    try reflexivity; try lia; try margins_nonneg.
  { four_edges. }
  exists s', r. repeat split; try assumption.
  exists merged. rewrite !Hget. repeat split; try assumption; reflexivity.
Defined.

(** The dictionary of the item after construction, and the sharing of the
    defaults by a region that has no margins of its own. *)
Example xy_item_dictionary_filled :
  heap pads !! 1%nat =
    Some [("top", 5); ("bottom", 2); ("left", 2); ("right", 2)].
Proof. reflexivity. Qed.

Example stick_shares_defaults :
  rg_extended_edges <$> objs pads !! 0%nat = Some (extended_edges pads).
Proof. reflexivity. Qed.

(** ** The scenario of the specification *)

Example scenario_rectangles :
  core_bbox_of 0 scenario = Some (10, 10, 30, 30) ∧
  extended_bbox_of 0 scenario = Some (8, 8, 32, 32).
Proof. split; reflexivity. Qed.

Example scenario_select_then_drag :
  cur_selected scenario_selected = "A | X: 10 Y: 10 | W: 20 H: 20" ∧
  cur_selected
    (Representation.dispatch "<B1-Motion>" (pointer 18 14)
       scenario_selected).2 = "A | X: 13 Y: 9 | W: 20 H: 20".
Proof. split; reflexivity. Qed.

(** * Further properties of the engine *)

(** ** [Region.move] *)

Lemma cv_move_lookup i dx dy c j :
  cv_items (cv_move i dx dy c) !! j =
    (if decide (i = j) then shift_item dx dy <$> cv_items c !! j
     else cv_items c !! j).
Proof.
  unfold cv_move. simpl. case_decide as Hij.
  - subst. by rewrite lookup_alter_eq.
  - by rewrite lookup_alter_ne.
Qed.

Lemma item_bbox_shift dx dy it :
  item_bbox (shift_item dx dy it) = shift_bbox dx dy (item_bbox it).
Proof.
  unfold item_bbox, shift_item, shift_bbox. simpl.
  repeat match goal with |- (_, _) = (_, _) => f_equal end; lia.
Qed.

Lemma bbox_size_shift dx dy bb : bbox_size (shift_bbox dx dy bb) = bbox_size bb.
Proof.
  destruct bb as [[[x1 y1] x2] y2]. unfold bbox_size, shift_bbox.
  f_equal; lia.
Qed.

Lemma canvas_fresh_move i dx dy c :
  canvas_fresh c → canvas_fresh (cv_move i dx dy c).
Proof.
  unfold canvas_fresh. intros Hf j it. rewrite cv_move_lookup. simpl.
  case_decide.
  - intros [it' [Hit _]]%fmap_Some. by apply (Hf j it').
  - apply Hf.
Qed.

Lemma move_run rid s r dx dy :
  objs s !! rid = Some r →
  Region.move rid dx dy s =
    (Returns tt,
     set_canvas (cv_move (rg_t r) dx dy (cv_move (rg_e r) dx dy (canvas s)))
       s).
Proof.
  intros Hr. unfold Region.move.
  run_with deref_region_run. run. run_with deref_region_run.
  reflexivity.
Qed.

(** X1.  [move(dx, dy)] on a well-formed region returns and shifts the
    bounding boxes of both rectangles by [(dx, dy)]; their sizes, the
    [Region] objects, the registry and the status text are unchanged, and
    the region stays well formed. *)
Theorem move_shifts_both_rectangles rid s dx dy :
  region_ok rid s →
  ∃ s',
    Region.move rid dx dy s = (Returns tt, s') ∧
    region_ok rid s' ∧
    is_Some (extended_bbox_of rid s) ∧
    extended_bbox_of rid s' = shift_bbox dx dy <$> extended_bbox_of rid s ∧
    core_bbox_of rid s' = shift_bbox dx dy <$> core_bbox_of rid s ∧
    extended_size rid s' = extended_size rid s ∧
    core_size rid s' = core_size rid s ∧
    objs s' = objs s ∧ images s' = images s ∧
    cur_selected s' = cur_selected s.
Proof.
  intros (r & Hr & [ie He] & [it Ht] & Hne & Hie & Hit & Hf).
  eexists. split; [by apply move_run|].
  assert (He' : cv_items (cv_move (rg_t r) dx dy
                   (cv_move (rg_e r) dx dy (canvas s))) !! rg_e r =
                Some (shift_item dx dy ie)).
  { rewrite !cv_move_lookup, decide_False, decide_True, He by congruence.
    done. }
  assert (Ht' : cv_items (cv_move (rg_t r) dx dy
                   (cv_move (rg_e r) dx dy (canvas s))) !! rg_t r =
                Some (shift_item dx dy it)).
  { rewrite !cv_move_lookup, decide_True, decide_False, Ht by congruence.
    done. }
  split.
  { exists r. cbn [set_canvas objs canvas images]. rewrite He', Ht'.
    repeat split; eauto using canvas_fresh_move. }
  unfold extended_size, core_size, extended_bbox_of, core_bbox_of, cv_bbox.
  cbn [set_canvas objs canvas images cur_selected].
  rewrite Hr. cbn [mbind option_bind]. rewrite He, Ht, He', Ht'.
  cbn [fmap option_fmap option_map].
  rewrite !item_bbox_shift, !bbox_size_shift.
  repeat split; eauto.
Qed.

Lemma move_shifts_both_rectangles_witness :
  region_ok 0 scenario ∧
  ∃ s', Region.move 0 3 (-1) scenario = (Returns tt, s') ∧
        extended_bbox_of 0 s' = Some (11, 7, 35, 31) ∧
        core_bbox_of 0 s' = Some (13, 9, 33, 29).
Proof.
  split; [exact scenario_region_ok|].
  destruct (move_shifts_both_rectangles 0 scenario 3 (-1) scenario_region_ok)
    as (s' & Hrun & _ & _ & Hext & Hcore & _).
  exists s'. repeat split; assumption.
Defined.

Lemma canvas_eq c1 c2 :
  cv_items c1 = cv_items c2 → cv_order c1 = cv_order c2 →
  cv_next c1 = cv_next c2 → c1 = c2.
Proof. destruct c1, c2. simpl. by intros -> -> ->. Qed.

Lemma set_canvas_id s : set_canvas (canvas s) s = s.
Proof. by destruct s. Qed.

Lemma shift_item_shift a b c d it :
  shift_item c d (shift_item a b it) = shift_item (a + c) (b + d) it.
Proof. unfold shift_item. simpl. f_equal; lia. Qed.

Lemma shift_item_0 it : shift_item 0 0 it = it.
Proof. destruct it. unfold shift_item. simpl. f_equal; lia. Qed.

Lemma set_canvas_set_canvas c1 c2 s :
  set_canvas c2 (set_canvas c1 s) = set_canvas c2 s.
Proof. reflexivity. Qed.

Lemma cv_move_compose e t a b c d cv :
  cv_move t c d (cv_move e c d (cv_move t a b (cv_move e a b cv))) =
    cv_move t (a + c) (b + d) (cv_move e (a + c) (b + d) cv).
Proof.
  apply canvas_eq; try reflexivity.
  apply map_eq. intros j. rewrite !cv_move_lookup.
  destruct (cv_items cv !! j) as [it|]; repeat case_decide;
    cbn [fmap option_fmap option_map]; rewrite ?shift_item_shift;
    try done; f_equal; unfold shift_item; f_equal; lia.
Qed.

Lemma cv_move_0 e t cv : cv_move t 0 0 (cv_move e 0 0 cv) = cv.
Proof.
  apply canvas_eq; try reflexivity.
  apply map_eq. intros j. rewrite !cv_move_lookup.
  destruct (cv_items cv !! j) as [it|]; repeat case_decide;
    cbn [fmap option_fmap option_map]; rewrite ?shift_item_0; done.
Qed.

(** X2.  Two moves in a row are one move by the sum of the deltas: the
    outcome and the whole state are the same, also when the reference
    names no object and both sides raise. *)
Theorem move_composition rid a b c d s :
  (Region.move rid a b ;; Region.move rid c d) s =
    Region.move rid (a + c) (b + d) s.
Proof.
  destruct (objs s !! rid) as [r|] eqn:Hr.
  - erewrite bind_returns; [| by apply move_run ].
    rewrite !(move_run rid _ r) by done.
    rewrite set_canvas_set_canvas.
    change (canvas (set_canvas ?c s)) with c.
    by rewrite cv_move_compose.
  - assert (Hd : deref_region rid s = (Raises ReferenceError, s))
      by (unfold deref_region; by rewrite Hr).
    unfold Region.move.
    erewrite (bind_raises (bind _ _));
      [| erewrite bind_raises; [reflexivity | exact Hd] ].
    by erewrite bind_raises.
Qed.

(** X3.  A move followed by the opposite move returns and restores the
    editor state exactly. *)
Theorem move_round_trip rid s dx dy :
  is_Some (objs s !! rid) →
  (Region.move rid dx dy ;; Region.move rid (- dx) (- dy)) s = (Returns tt, s).
Proof.
  intros [r Hr].
  erewrite bind_returns; [| by apply move_run ].
  rewrite (move_run rid _ r) by done.
  rewrite set_canvas_set_canvas.
  change (canvas (set_canvas ?c s)) with c.
  by rewrite cv_move_compose, !Z.add_opp_diag_r, cv_move_0, set_canvas_id.
Qed.

Lemma move_round_trip_witness :
  is_Some (objs scenario !! 0%nat) ∧
  (Region.move 0 7 (-4) ;; Region.move 0 (- 7) (- -4)) scenario =
    (Returns tt, scenario).
Proof.
  split; [vm_compute; eauto|].
  apply (move_round_trip 0 scenario 7 (-4)). vm_compute. eauto.
Defined.

(** ** [Region.resize]: the registry, the display list and the margins *)

Lemma resized_item_raw dw dh it :
  {| it_x := it_x it; it_y := it_y it;
     it_image := (it_x it + (it_image it).1 - it_x it + dw,
                  it_y it + (it_image it).2 - it_y it + dh);
     it_tags := [] |} = resized_item dw dh it.
Proof. unfold resized_item, grown. f_equal. f_equal; lia. Qed.

(** The whole state after a resize of a well-formed region, when the
    sizes it asks for are accepted. *)
Lemma resize_state rid s r ie it dw dh which :
  objs s !! rid = Some r →
  cv_items (canvas s) !! rg_e r = Some ie →
  cv_items (canvas s) !! rg_t r = Some it →
  rg_e r ≠ rg_t r →
  is_Some (images s !! pretty (rg_e r)) →
  is_Some (images s !! pretty (rg_t r)) →
  canvas_fresh (canvas s) →
  resize_fits rid dw dh which s = true →
  let n := cv_next (canvas s) in
  ∃ s' r',
    Region.resize rid dw dh which s = (Returns tt, s') ∧
    objs s' !! rid = Some r' ∧
    (∀ j, j ≠ rid → objs s' !! j = objs s !! j) ∧
    rg_e r' = n ∧
    rg_t r' = (if which then n + 1 else rg_t r) ∧
    rg_inputs r' = rg_inputs r ∧
    images s' =
      (if which then λ m, <[pretty (n + 1) := rid]> (delete (pretty (rg_t r)) m)
       else id)
        (<[pretty n := rid]> (delete (pretty (rg_e r)) (images s))) ∧
    cv_items (canvas s') =
      (if which
       then λ m, <[n + 1 := resized_item dw dh it]> (delete (rg_t r) m)
       else id)
        (<[n := resized_item dw dh ie]> (delete (rg_e r) (cv_items (canvas s)))) ∧
    cv_order (canvas s') =
      (if which then λ o, filter (λ j, j ≠ rg_t r) o ++ [n + 1] else id)
        (filter (λ j, j ≠ rg_e r) (cv_order (canvas s)) ++ [n]) ∧
    selected s' = selected s ∧ _sel s' = _sel s ∧
    selected_data s' = selected_data s ∧ bindings s' = bindings s ∧
    heap s' = heap s.
Proof.
  intros Hr He Ht Hne [o Ho] [o' Ho'] Hf Hfits n.
  rewrite (resize_fits_items rid s r ie it) in Hfits by done.
  apply andb_prop in Hfits as [Hfe Hft].
  assert (Hnt : n ≠ rg_t r).
  { intros E. unfold n in E. rewrite <- E in Ht.
    rewrite canvas_fresh_lookup in Ht by (done || lia). done. }
  unfold Region.resize.
  run_with deref_region_run.
  run_with bbox_unpack_run.
  run_with images_pop_run.
  run.
  erewrite bind_returns; cycle 1.
  { unfold lift. rewrite Image_resize_fits by by apply fits_bbox.
    reflexivity. }
  simpl.
  run. run. run. run.
  destruct which.
  - erewrite bind_returns; cycle 1.
    { apply deref_region_run. simpl. rewrite !list_lookup_alter_eq, Hr. done. }
    simpl.
    erewrite bind_returns; cycle 1.
    { apply bbox_unpack_run. simpl.
      rewrite lookup_insert_ne, lookup_delete_ne by done. done. }
    simpl.
    erewrite bind_returns; cycle 1.
    { apply images_pop_run. simpl.
      rewrite lookup_insert_ne, lookup_delete_ne
        by (intros ?%(inj pretty); done).
      done. }
    simpl.
    run.
    erewrite bind_returns; cycle 1.
    { unfold lift. rewrite Image_resize_fits by by apply fits_bbox.
      reflexivity. }
    simpl.
    run. run. run.
    eexists _, _. split; [reflexivity|]. simpl.
    rewrite !list_lookup_alter_eq, Hr. simpl.
    split; [reflexivity|]. simpl.
    split; [intros j Hj; by rewrite !list_lookup_alter_ne|].
    rewrite !resized_item_raw. done.
  - eexists _, _. split; [reflexivity|]. simpl.
    rewrite !list_lookup_alter_eq, Hr. simpl.
    split; [reflexivity|]. simpl.
    split; [intros j Hj; by rewrite !list_lookup_alter_ne|].
    rewrite !resized_item_raw. done.
Qed.

Lemma region_ok_fresh_ids rid s r :
  region_ok rid s → objs s !! rid = Some r →
  rg_e r < cv_next (canvas s) ∧ rg_t r < cv_next (canvas s) ∧
  rg_e r ≠ rg_t r.
Proof.
  intros (r0 & Hr0 & [ie He] & [it Ht] & Hne & _ & _ & Hf) Hr.
  rewrite Hr in Hr0. injection Hr0 as <-.
  split; [exact (Hf _ _ He)|]. split; [exact (Hf _ _ Ht)|]. done.
Qed.



(** *** Hit testing on the display list *)








(** *** The margins between the two rectangles *)

Lemma margins_of_items rid s r ie it :
  objs s !! rid = Some r →
  cv_items (canvas s) !! rg_e r = Some ie →
  cv_items (canvas s) !! rg_t r = Some it →
  margins_of rid s = Some (margins_between (item_bbox ie) (item_bbox it)).
Proof.
  intros Hr He Ht. unfold margins_of, extended_bbox_of, core_bbox_of, cv_bbox.
  rewrite Hr. cbn [mbind option_bind]. rewrite He, Ht. done.
Qed.



(** X7.  A move keeps the four margins between the two rectangles. *)
Theorem move_keeps_margins rid s dx dy :
  region_ok rid s →
  ∃ s',
    Region.move rid dx dy s = (Returns tt, s') ∧
    is_Some (margins_of rid s) ∧
    margins_of rid s' = margins_of rid s.
Proof.
  intros (r & Hr & [ie He] & [it Ht] & Hne & _ & _ & _).
  eexists. split; [by apply move_run|].
  rewrite (margins_of_items rid s r ie it) by done.
  split; [eauto|].
  erewrite (margins_of_items rid _ r); cycle 1.
  - done.
  - cbn [set_canvas canvas].
    rewrite !cv_move_lookup, decide_False, decide_True, He by congruence.
    done.
  - cbn [set_canvas canvas].
    rewrite !cv_move_lookup, decide_True, decide_False, Ht by congruence.
    done.
  - f_equal. rewrite !item_bbox_shift.
    destruct (item_bbox ie) as [[[? ?] ?] ?], (item_bbox it) as [[[? ?] ?] ?].
    unfold margins_between, shift_bbox.
    repeat match goal with |- (_, _) = (_, _) => f_equal end; lia.
Qed.

Lemma move_keeps_margins_witness :
  region_ok 0 scenario ∧
  ∃ s',
    Region.move 0 (-40) 7 scenario = (Returns tt, s') ∧
    margins_of 0 s' = Some (2, 2, 2, 2).
Proof.
  split; [exact scenario_region_ok|].
  destruct (move_keeps_margins 0 scenario (-40) 7 scenario_region_ok)
    as (s' & Hrun & _ & Hm).
  exists s'. split; [assumption|]. rewrite Hm. reflexivity.
Defined.

(** ** The handle of the selection after a keyboard resize *)

(** Computing the label reads the state and leaves it as it is. *)
Lemma status_label_state s : (Representation.status_label s).2 = s.
Proof.
  unfold Representation.status_label, try_except, BUTTON_NAMES,
    Representation.next_group, Representation.fallback_label,
    Representation.selected_region, bind, read, deref_region, ret, raise.
  destruct (selected s) as [rid|]; [|done].
  destruct (objs s !! rid) as [r|]; [|done].
  repeat (case_match; simplify_eq; try done).
Qed.

Lemma resize_region_calls_resize ev s rid :
  selected s = Some rid →
  shift_held ev = true →
  ev_keysym ev ∈ ["Right"; "Left"; "Up"; "Down"] →
  ∃ dw dh,
    -1 ≤ dw ∧ -1 ≤ dh ∧
    Representation.resize_region ev s = Region.resize rid dw dh true s.
Proof.
  intros Hsel Hshift Hkey. unfold Representation.resize_region.
  erewrite bind_returns; [| unfold read; by rewrite Hsel ].
  rewrite Hshift, !andb_true_r.
  repeat (case_bool_decide; [eexists _, _; split; [|split; [|done]]; lia|]).
  repeat (apply elem_of_cons in Hkey as [?|Hkey]; [done|]).
  by apply elem_of_nil in Hkey.
Qed.

(** Sizes that are accepted when shrunk by one pixel each way are
    accepted with any deltas of at least -1. *)
Lemma resize_fits_unit rid s dw dh which :
  resize_fits rid (-1) (-1) which s = true →
  -1 ≤ dw → -1 ≤ dh →
  resize_fits rid dw dh which s = true.
Proof.
  unfold resize_fits, fits, grown.
  destruct (extended_size rid s) as [[ew eh]|]; [|done].
  destruct (core_size rid s) as [[cw ch]|]; [|done].
  simpl. intros H Hdw Hdh.
  apply andb_prop in H as [[?%Z.leb_le ?%Z.leb_le]%andb_prop Hcore].
  apply andb_true_intro. split.
  - apply andb_true_intro. split; apply Z.leb_le; lia.
  - destruct which; [|done]. simpl in *.
    apply andb_prop in Hcore as [?%Z.leb_le ?%Z.leb_le].
    apply andb_true_intro. split; apply Z.leb_le; lia.
Qed.

(** X8.  After a modifier+arrow resize of the selected region, both
    rectangles of which are at least two pixels wide and high, the
    selection is kept, but the handle [_sel] still names the rectangle
    that was hit, which the resize deleted: its bounding box is [None],
    unpacking it raises [TypeError], and [statusbar_updater] raises
    instead of publishing. *)
Theorem keyboard_resize_invalidates_handle ev s rid r i :
  selected s = Some rid →
  region_ok rid s →
  objs s !! rid = Some r →
  resize_fits rid (-1) (-1) true s = true →
  _sel s = Some i →
  i = rg_e r ∨ i = rg_t r →
  shift_held ev = true →
  ev_keysym ev ∈ ["Right"; "Left"; "Up"; "Down"] →
  ∃ s',
    Representation.resize_region ev s = (Returns tt, s') ∧
    selected s' = Some rid ∧
    _sel s' = Some i ∧
    cv_bbox i (canvas s') = None ∧
    Representation.bbox_sel s' =
      (Raises (TypeError "cannot unpack non-iterable NoneType object"), s') ∧
    ∃ e, Representation.statusbar_updater s' = (Raises e, s').
Proof.
  intros Hsel Hok Hr Hfits Hi Hhit Hshift Hkey.
  destruct (resize_region_calls_resize ev s rid Hsel Hshift Hkey)
    as (dw & dh & Hdw & Hdh & ->).
  destruct (region_ok_fresh_ids rid s r Hok Hr) as (Hlt_e & Hlt_t & Hne).
  destruct Hok as (r0 & Hr0 & [ie He] & [it Ht] & _ & Hie & Hit & Hf).
  rewrite Hr in Hr0. injection Hr0 as <-.
  destruct (resize_state rid s r ie it dw dh true)
    as (s' & r' & Hrun & Hr' & _ & He' & Ht' & _ & _ & Hitems & _ & Hsel' &
        Hi' & _); try done.
  { by apply resize_fits_unit. }
  exists s'. split; [done|]. split; [congruence|]. split; [congruence|].
  assert (Hgone : cv_bbox i (canvas s') = None).
  { unfold cv_bbox. rewrite Hitems.
    destruct Hhit as [-> | ->].
    - rewrite lookup_insert_ne, lookup_delete_ne, lookup_insert_ne,
        lookup_delete_eq by lia. done.
    - rewrite lookup_insert_ne, lookup_delete_eq by lia. done. }
  assert (Hbb : Representation.bbox_sel s' =
    (Raises (TypeError "cannot unpack non-iterable NoneType object"), s')).
  { unfold Representation.bbox_sel.
    erewrite bind_returns; [| reflexivity ].
    rewrite Hi', Hi. unfold bbox_unpack. by rewrite Hgone. }
  split; [done|]. split; [done|].
  unfold Representation.statusbar_updater.
  pose proof (status_label_state s') as Hstate.
  destruct (Representation.status_label s') as [[key|e] s1] eqn:Hlabel;
    simpl in Hstate; subst s1.
  - eexists. erewrite bind_returns; [| exact Hlabel ].
    by erewrite bind_raises.
  - exists e. by erewrite bind_raises.
Qed.

Lemma keyboard_resize_invalidates_handle_witness :
  selected scenario_selected = Some 0%nat ∧
  _sel scenario_selected = Some 3 ∧
  ∃ s',
    Representation.resize_region (key "Down" 1) scenario_selected =
      (Returns tt, s') ∧
    _sel s' = Some 3 ∧
    cv_bbox 3 (canvas s') = None.
Proof.
  split; [reflexivity|]. split; [reflexivity|].
  destruct (keyboard_resize_invalidates_handle (key "Down" 1)
    scenario_selected 0%nat
    {| rg_config := scenario_item; rg_inputs := InList ["a"];
       rg_frame := [("x", 10); ("y", 10); ("width", 20); ("height", 20)];
       rg_width := 20; rg_height := 20; rg_coords := (10, 10);
       rg_extended_edges := 0%nat; rg_touch := (20, 20);
       rg_extended := (24, 24); rg_e := 2; rg_t := 3 |} 3)
    as (s' & Hrun & _ & Hsel & Hgone & _); try reflexivity.
  - eexists. split; [vm_compute; reflexivity|].
    split; [vm_compute; eauto|]. split; [vm_compute; eauto|].
    split; [intros E; vm_compute in E; discriminate|].
    split; [vm_compute; eauto|]. split; [vm_compute; eauto|].
    unfold canvas_fresh. apply (bool_decide_unpack _). vm_compute. exact I.
  - right. reflexivity.
  - do 3 (apply elem_of_cons; right). apply elem_of_cons. by left.
  - exists s'. repeat split; assumption.
Defined.

(** Held long enough, the modifier and the left arrow shrink the core
    rectangle of the small document to a width of one pixel; the press
    after that asks for a width of zero, which is refused.  (The first
    error of that press is that of [move_region], which fails to publish
    through the stale handle.) *)
Example keyboard_shrink_is_refused :
  let press := λ s,
    (Representation.dispatch "<Left>" (key "Left" 1) s).2 in
  let s19 := Nat.iter 19 press scenario_selected in
  core_size 0 scenario_selected = Some (20, 20) ∧
  core_size 0 s19 = Some (1, 20) ∧
  extended_size 0 s19 = Some (5, 24) ∧
  (Representation.dispatch "<Left>" (key "Left" 1) s19).1 =
    [TypeError "cannot unpack non-iterable NoneType object"; ValueError] ∧
  core_bbox_of 0 (press s19) = None.
Proof. repeat split; vm_compute; reflexivity. Qed.

(** ** [select_region] *)








(** X9.  A press whose closest item is tagged ["nodrag"] (the
    background) returns at once and changes nothing: a selection made
    before stays, and so does the drag anchor. *)
Theorem select_background_ignored ev s i :
  cv_find_closest (ev_x ev) (ev_y ev) (canvas s) = Some i →
  "nodrag" ∈ from_option it_tags [] (cv_items (canvas s) !! i) →
  Representation.select_region ev s = (Returns tt, s).
Proof.
  intros Hhit Htag. unfold Representation.select_region.
  erewrite bind_returns; [| unfold read; rewrite Hhit; reflexivity ].
  erewrite bind_returns; [| reflexivity ].
  by rewrite bool_decide_eq_true_2.
Qed.

Lemma select_background_ignored_witness :
  cv_find_closest 200 150 (canvas scenario_selected) = Some 1 ∧
  Representation.select_region (pointer 200 150) scenario_selected =
    (Returns tt, scenario_selected) ∧
  selected scenario_selected = Some 0%nat.
Proof.
  split; [reflexivity|]. split; [|reflexivity].
  apply (select_background_ignored (pointer 200 150) scenario_selected 1).
  - reflexivity.
  - vm_compute. apply elem_of_cons. by left.
Defined.




(** ** [drag] *)

(** Publishing the status changes at most the status text. *)
Lemma statusbar_updater_frame s :
  ∃ txt, (Representation.statusbar_updater s).2 = set_cur_selected txt s.
Proof.
  unfold Representation.statusbar_updater, bind.
  pose proof (status_label_state s) as Hstate.
  destruct (Representation.status_label s) as [[key|e] s1];
    simpl in Hstate; subst s1; cycle 1.
  { exists (cur_selected s). by destruct s. }
  unfold Representation.bbox_sel, bind, read, bbox_unpack, raise, modify.
  destruct (_sel s) as [i|]; cycle 1.
  { exists (cur_selected s). by destruct s. }
  destruct (cv_bbox i (canvas s)) as [bb|].
  - eexists. reflexivity.
  - exists (cur_selected s). by destruct s.
Qed.

(** What a motion event does to the geometry and the anchor, whether or
    not the status can be published afterwards. *)
Lemma drag_frame ev s rid r :
  selected s = Some rid →
  objs s !! rid = Some r →
  ∃ txt,
    (Representation.drag ev s).2 =
      set_cur_selected txt
        (set_selected_data (ev_x ev, ev_y ev)
           (set_canvas
              (cv_move (rg_t r) (ev_x ev - (selected_data s).1)
                 (ev_y ev - (selected_data s).2)
                 (cv_move (rg_e r) (ev_x ev - (selected_data s).1)
                    (ev_y ev - (selected_data s).2) (canvas s))) s)).
Proof.
  intros Hsel Hr. unfold Representation.drag.
  erewrite bind_returns; [| reflexivity ].
  destruct (selected_data s) as [ax ay] eqn:Hanchor.
  cbn [fst snd].
  erewrite bind_returns; cycle 1.
  { unfold Representation.selected_region.
    erewrite bind_returns; [| unfold read; by rewrite Hsel ].
    cbv beta iota.
    erewrite bind_returns; [| by apply deref_region_run ]. reflexivity. }
  cbv beta iota.
  erewrite bind_returns; [| by apply move_run ].
  erewrite bind_returns; [| reflexivity ].
  apply statusbar_updater_frame.
Qed.



(** X12.  Motion events telescope: after a motion to one point and a
    motion to a second, the canvas and the anchor are what a single
    motion to the second point gives. *)
Theorem drag_composition ev1 ev2 s rid :
  selected s = Some rid →
  is_Some (objs s !! rid) →
  let s1 := (Representation.drag ev1 s).2 in
  canvas (Representation.drag ev2 s1).2 =
    canvas (Representation.drag ev2 s).2 ∧
  selected_data (Representation.drag ev2 s1).2 = (ev_x ev2, ev_y ev2) ∧
  selected_data (Representation.drag ev2 s).2 = (ev_x ev2, ev_y ev2).
Proof.
  intros Hsel [r Hr] s1.
  destruct (drag_frame ev1 s rid r Hsel Hr) as [txt1 H1].
  destruct (drag_frame ev2 s rid r Hsel Hr) as [txt3 H3].
  assert (Hsel1 : selected s1 = Some rid) by (subst s1; by rewrite H1).
  assert (Hr1 : objs s1 !! rid = Some r) by (subst s1; by rewrite H1).
  destruct (drag_frame ev2 s1 rid r Hsel1 Hr1) as [txt2 H2].
  rewrite H2, H3. subst s1. rewrite H1.
  cbn [set_cur_selected set_selected_data set_canvas canvas selected_data
       fst snd].
  split; [|done].
  rewrite cv_move_compose. do 2 f_equal; lia.
Qed.

Lemma drag_composition_witness :
  selected scenario_selected = Some 0%nat ∧
  let s1 := (Representation.drag (pointer 40 2) scenario_selected).2 in
  core_bbox_of 0 (Representation.drag (pointer 18 14) s1).2 =
    Some (13, 9, 33, 29).
Proof.
  split; [reflexivity|].
  destruct (drag_composition (pointer 40 2) (pointer 18 14)
              scenario_selected 0%nat) as (Hcanvas & _ & _);
    [reflexivity | vm_compute; eauto |].
  clear Hcanvas. vm_compute. reflexivity.
Defined.

Lemma select_region_nodrag ev s i :
  cv_find_closest (ev_x ev) (ev_y ev) (canvas s) = Some i →
  "nodrag" ∈ from_option it_tags [] (cv_items (canvas s) !! i) →
  Representation.select_region ev s = (Returns tt, s).
Proof.
  intros Hhit Htag. unfold Representation.select_region, bind, read.
  rewrite Hhit. simpl. by rewrite bool_decide_eq_true_2.
Qed.

(** X13.  A release resets the anchor to the origin, and a press on
    the background changes neither the anchor nor the selection; the next
    motion event therefore moves the region still selected by the
    absolute coordinates of the pointer. *)
Theorem drag_after_background_press ev0 ev1 ev2 s rid r i :
  selected s = Some rid →
  objs s !! rid = Some r →
  cv_find_closest (ev_x ev1) (ev_y ev1) (canvas s) = Some i →
  "nodrag" ∈ from_option it_tags [] (cv_items (canvas s) !! i) →
  let s1 := (Representation.drag_stop ev0 s).2 in
  let s2 := (Representation.select_region ev1 s1).2 in
  let s3 := (Representation.drag ev2 s2).2 in
  selected s3 = Some rid ∧
  canvas s3 =
    cv_move (rg_t r) (ev_x ev2) (ev_y ev2)
      (cv_move (rg_e r) (ev_x ev2) (ev_y ev2) (canvas s)).
Proof.
  intros Hsel Hr Hhit Htag s1 s2 s3.
  assert (Hs2 : s2 = s1).
  { subst s2. by rewrite (select_region_nodrag ev1 s1 i). }
  subst s3. rewrite Hs2.
  destruct (drag_frame ev2 s1 rid r) as [txt ->]; [done..|].
  subst s1.
  cbn [set_cur_selected set_selected_data set_canvas canvas selected
       selected_data Representation.drag_stop modify fst snd].
  split; [done|]. by rewrite !Z.sub_0_r.
Qed.

Lemma drag_after_background_press_witness :
  selected scenario_selected = Some 0%nat ∧
  cv_find_closest 200 150 (canvas scenario_selected) = Some 1 ∧
  let s1 := (Representation.drag_stop (pointer 15 15) scenario_selected).2 in
  let s2 := (Representation.select_region (pointer 200 150) s1).2 in
  let s3 := (Representation.drag (pointer 201 150) s2).2 in
  core_bbox_of 0 scenario_selected = Some (10, 10, 30, 30) ∧
  core_bbox_of 0 s3 = Some (211, 160, 231, 180).
Proof.
  split; [reflexivity|]. split; [reflexivity|].
  destruct (drag_after_background_press (pointer 15 15) (pointer 200 150)
    (pointer 201 150) scenario_selected 0%nat
    {| rg_config := scenario_item; rg_inputs := InList ["a"];
       rg_frame := [("x", 10); ("y", 10); ("width", 20); ("height", 20)];
       rg_width := 20; rg_height := 20; rg_coords := (10, 10);
       rg_extended_edges := 0%nat; rg_touch := (20, 20);
       rg_extended := (24, 24); rg_e := 2; rg_t := 3 |} 1)
    as [_ Hcanvas]; try reflexivity.
  { vm_compute. apply elem_of_cons. by left. }
  clear Hcanvas. vm_compute. split; reflexivity.
Defined.

(** ** The two handlers of an arrow key *)

(** X14.  Of the two handlers of an arrow key at most one touches the
    geometry: with the modifier held [move_region] changes at most the
    status text, and without it [resize_region] returns with the state
    as it was. *)
Theorem arrow_handlers_split_on_modifier ev s :
  if shift_held ev
  then ∃ txt, (Representation.move_region ev s).2 = set_cur_selected txt s
  else Representation.resize_region ev s = (Returns tt, s).
Proof.
  destruct (shift_held ev) eqn:Hshift.
  - unfold Representation.move_region, bind at 1, read.
    destruct (selected s) as [rid|]; cycle 1.
    { exists (cur_selected s). by destruct s. }
    rewrite Hshift, !andb_false_r.
    erewrite bind_returns; [| reflexivity ].
    apply statusbar_updater_frame.
  - unfold Representation.resize_region, bind, read.
    destruct (selected s) as [rid|]; [|done].
    by rewrite Hshift, !andb_false_r.
Qed.

(** ** The label of the status line *)

Lemma dict_get_Some_elem {V} k (v : V) d :
  NoDup (dict_keys d) → dict_get k d = Some v ↔ (k, v) ∈ d.
Proof.
  unfold dict_keys. induction d as [|[k0 v0] d IH]; simpl.
  - intros _. split; [done|]. intros H. by apply elem_of_nil in H.
  - intros [Hnin Hnd]%NoDup_cons. rewrite elem_of_cons.
    case_decide as Hk.
    + subst k0. split.
      * intros [= ->]. by left.
      * intros [[= ->]|Hin]; [done|].
        exfalso. apply Hnin. apply list_elem_of_fmap. by exists (k, v).
    + rewrite IH by done. split; [by right|].
      intros [[= -> ->]|Hin]; done.
Qed.

Lemma dict_get_perm {V} k (d1 d2 : dict V) :
  NoDup (dict_keys d1) → d1 ≡ₚ d2 → dict_get k d1 = dict_get k d2.
Proof.
  intros Hnd Hperm.
  assert (Hnd2 : NoDup (dict_keys d2)).
  { unfold dict_keys in *. by rewrite <- Hperm. }
  apply option_eq. intros v.
  rewrite !dict_get_Some_elem by done. by rewrite Hperm.
Qed.

(** X15.  The named groups are matched as dictionaries: bindings that
    hold the entries of a group of [BUTTON_NAMES] in any order get the
    name of that group as label. *)
Theorem status_label_ignores_key_order s rid r d name group :
  selected s = Some rid →
  objs s !! rid = Some r →
  rg_inputs r = InDict d →
  (name, group) ∈ BUTTON_NAMES →
  d ≡ₚ group →
  Representation.status_label s = (Returns name, s).
Proof.
  intros Hsel Hr Hinputs Hgroup Hperm.
  assert (Hget : ∀ k, dict_get k d = dict_get k group).
  { intros k. symmetry. apply dict_get_perm; [|done].
    unfold BUTTON_NAMES in Hgroup.
    repeat (apply elem_of_cons in Hgroup as [[= -> ->]|Hgroup];
            [apply (bool_decide_unpack _); vm_compute; exact I|]).
    by apply elem_of_nil in Hgroup. }
  assert (Hlen : length d = length group) by (by rewrite Hperm).
  unfold Representation.status_label, try_except, BUTTON_NAMES,
    Representation.next_group.
  unfold BUTTON_NAMES in Hgroup.
  assert (Hregion : ∀ attr, Representation.selected_region attr s =
                            (Returns (rid, r), s)).
  { intros attr. unfold Representation.selected_region.
    erewrite bind_returns; [| unfold read; by rewrite Hsel ].
    cbv beta iota.
    erewrite bind_returns; [| by apply deref_region_run ]. reflexivity. }
  repeat (apply elem_of_cons in Hgroup as [[= -> ->]|Hgroup]);
    [..| by apply elem_of_nil in Hgroup];
    repeat (erewrite bind_returns; [| apply Hregion ]; cbv beta iota;
            rewrite Hinputs; unfold Representation.group_eq, dict_eqb;
            rewrite Hlen; cbn [forallb fst snd]; rewrite !Hget;
            match goal with
            | |- context [if ?c then _ else _] =>
                let v := eval vm_compute in c in
                replace c with v by (vm_compute; reflexivity)
            end; cbv beta iota);
    reflexivity.
Qed.

Lemma status_label_ignores_key_order_witness :
  selected touch_selected = Some 0%nat ∧
  Representation.status_label touch_selected =
    (Returns "Touch Screen", touch_selected) ∧
  cur_selected touch_selected = "Touch Screen | X: 10 Y: 10 | W: 20 H: 20".
Proof.
  split; [reflexivity|]. split; [|vm_compute; reflexivity].
  apply (status_label_ignores_key_order touch_selected 0%nat
    {| rg_config := touch_item;
       rg_inputs := InDict [("y", "touchScreenY"); ("x", "touchScreenX")];
       rg_frame := [("x", 10); ("y", 10); ("width", 20); ("height", 20)];
       rg_width := 20; rg_height := 20; rg_coords := (10, 10);
       rg_extended_edges := 0%nat; rg_touch := (20, 20);
       rg_extended := (24, 24); rg_e := 2; rg_t := 3 |}
    [("y", "touchScreenY"); ("x", "touchScreenX")]
    "Touch Screen" [("x", "touchScreenX"); ("y", "touchScreenY")]).
  - reflexivity.
  - vm_compute. reflexivity.
  - reflexivity.
  - do 2 (apply elem_of_cons; right). apply elem_of_cons. by left.
  - apply perm_swap.
Defined.

(** X16.  For bindings given as a list the label is the capitalized
    name of a list of one, the capitalized names joined with [", "] for a
    longer list, and an [IndexError] for the empty list; computing it
    leaves the state as it was. *)
Theorem status_label_of_list s rid r l :
  selected s = Some rid →
  objs s !! rid = Some r →
  rg_inputs r = InList l →
  Representation.status_label s =
    (match l with
     | [] => Raises IndexError
     | [i] => Returns (capitalize i)
     | _ => Returns (String.concat ", " (capitalize <$> l))
     end, s).
Proof.
  intros Hsel Hr Hinputs.
  assert (Hregion : ∀ attr, Representation.selected_region attr s =
                            (Returns (rid, r), s)).
  { intros attr. unfold Representation.selected_region.
    erewrite bind_returns; [| unfold read; by rewrite Hsel ].
    cbv beta iota.
    erewrite bind_returns; [| by apply deref_region_run ]. reflexivity. }
  unfold Representation.status_label, try_except, BUTTON_NAMES,
    Representation.next_group.
  do 3 (erewrite bind_returns; [| apply Hregion ]; cbv beta iota;
        rewrite Hinputs; cbn [Representation.group_eq]).
  cbn [raise]. unfold Representation.fallback_label.
  erewrite bind_returns; [| apply Hregion ]. cbv beta iota.
  rewrite Hinputs.
  destruct l as [|i [|j l]]; reflexivity.
Qed.

Lemma status_label_of_list_witness :
  selected pads_xy_selected = Some 1%nat ∧
  Representation.status_label pads_xy_selected =
    (Returns "X, Y", pads_xy_selected).
Proof.
  split; [reflexivity|].
  apply (status_label_of_list pads_xy_selected 1%nat
    {| rg_config := xy_item; rg_inputs := InList ["x"; "y"];
       rg_frame := [("x", 100); ("y", 100); ("width", 30); ("height", 30)];
       rg_width := 30; rg_height := 30; rg_coords := (100, 100);
       rg_extended_edges := 1%nat; rg_touch := (30, 30);
       rg_extended := (34, 37); rg_e := 4; rg_t := 5 |} ["x"; "y"]).
  - reflexivity.
  - vm_compute. reflexivity.
  - reflexivity.
Defined.

(** ** Construction of the regions *)

(** The whole state after the constructor of [Region]. *)
Lemma init_state item s dflt :
  item_ok (heap s) item →
  heap s !! extended_edges s = Some dflt →
  four_edges dflt →
  margins_nonneg dflt →
  ∃ inp frame x y w h resolved top bottom left right,
    cfg_inputs item = Some inp ∧ cfg_frame item = Some frame ∧
    four_edges resolved ∧ margins_nonneg resolved ∧
    Region.init item s =
      (Returns (length (objs s)),
       set_images
         (<[pretty (cv_next (canvas s)) := length (objs s)]>
            (<[pretty (cv_next (canvas s) + 1) := length (objs s)]>
               (images s)))
         (set_objs (objs s ++
            [ {| rg_config := item; rg_inputs := inp; rg_frame := frame;
                 rg_width := w; rg_height := h; rg_coords := (x, y);
                 rg_extended_edges :=
                   default (extended_edges s) (cfg_extendedEdges item);
                 rg_touch := (w, h);
                 rg_extended := (left + w + right, top + h + bottom);
                 rg_e := cv_next (canvas s);
                 rg_t := cv_next (canvas s) + 1 |} ])
            (set_canvas
               (cv_create_image x y (w, h) []
                  (cv_create_image (x - left) (y - top)
                     (left + w + right, top + h + bottom) []
                     (canvas s)).2).2
               (set_heap
                  (<[default (extended_edges s) (cfg_extendedEdges item) :=
                       resolved]> (heap s)) s)))).
Proof.
  intros ([inp Hinp] &
          (frame & w & h & Hframe & Hw & Hw0 & Hh & Hh0 & [x Hx] & [y Hy]) &
          Hmine) Hdflt Hfour Hdflt0.
  assert (Hov : ∃ ov, match cfg_extendedEdges item with
                      | Some mine => heap s !! mine = Some ov
                      | None => ov = []
                      end ∧ margins_nonneg ov).
  { destruct (cfg_extendedEdges item).
    - destruct Hmine as (ov & ? & ?). eauto.
    - exists []. split; [done|]. by intros k v. }
  destruct Hov as (ov & Hov & Hov0).
  assert (Hedges : ∃ resolved,
    let edges := default (extended_edges s) (cfg_extendedEdges item) in
    (∀ k, dict_get k resolved =
            match dict_get k ov with
            | Some v => Some v
            | None => dict_get k dflt
            end) ∧
    match cfg_extendedEdges item with
    | Some mine =>
        let* rd := deref_dict (extended_edges s) in
        for_each (dict_keys rd) (Region.fill_edge mine (extended_edges s)) ;;
        ret mine
    | None => ret (extended_edges s)
    end s = (Returns edges, set_heap (<[edges := resolved]> (heap s)) s)).
  { destruct (cfg_extendedEdges item) as [mine|] eqn:Hmine'.
    - destruct (fill_edges_spec mine (extended_edges s) dflt (dict_keys dflt)
                  s ov Hov Hdflt) as (d' & Hrun & _ & Hget).
      { intros k. apply dict_get_keys. }
      exists d'. split.
      + intros k. rewrite Hget. destruct (dict_get k ov); [done|].
        case_decide as Hin; [done|].
        destruct (dict_get k dflt) eqn:Hk; [|done].
        exfalso. apply Hin. unfold dict_keys.
        clear -Hk. induction dflt as [|[k0 v0] d IH]; simpl in *; [done|].
        case_decide; [subst; by apply elem_of_cons; left|].
        apply elem_of_cons; right. by apply IH.
      + erewrite bind_returns; [| by apply deref_dict_run ].
        erewrite bind_returns; [| exact Hrun ]. reflexivity.
    - subst ov. exists dflt. split; [done|].
      simpl. rewrite insert_id, set_heap_id by done. reflexivity. }
  destruct Hedges as (resolved & Hget & Hrun).
  assert (Hres : four_edges resolved).
  { intros k Hk. rewrite Hget. destruct (dict_get k ov); [eauto|].
    by apply Hfour. }
  destruct (Hres "top") as [top Htop]; [set_solver|].
  destruct (Hres "bottom") as [bottom Hbottom]; [set_solver|].
  destruct (Hres "left") as [left Hleft]; [set_solver|].
  destruct (Hres "right") as [right Hright]; [set_solver|].
  pose proof (resolved_nonneg ov dflt resolved Hov0 Hdflt0 Hget) as Hres0.
  pose proof (Hres0 _ _ Htop). pose proof (Hres0 _ _ Hbottom).
  pose proof (Hres0 _ _ Hleft). pose proof (Hres0 _ _ Hright).
  exists inp, frame, x, y, w, h, resolved, top, bottom, left, right.
  split; [done|]. split; [done|]. split; [done|]. split; [done|].
  unfold Region.init.
  rewrite Hinp. run. rewrite Hframe. run. rewrite Hw. run.
  rewrite Hh. run. rewrite Hx. run. rewrite Hy. run. run.
  erewrite bind_returns; [| exact Hrun ].
  erewrite bind_returns; cycle 1.
  { apply deref_dict_run. simpl. apply lookup_insert_eq. }
  rewrite Htop. run. rewrite Hbottom. run. rewrite Hleft. run.
  rewrite Hright. run.
  erewrite bind_returns; cycle 1.
  { unfold lift. rewrite Image_new_nonneg by lia. reflexivity. }
  erewrite bind_returns; cycle 1.
  { unfold lift. rewrite Image_new_nonneg by lia. reflexivity. }
  simpl.
  run. run. run. run. run.
  reflexivity.
Qed.

Lemma construct_region_step item s d :
  item_ok (heap s) item →
  heap s !! extended_edges s = Some d →
  four_edges d →
  margins_nonneg d →
  canvas_fresh (canvas s) →
  ∃ s',
    construct_region item s = (Returns tt, s') ∧
    regions s' = regions s ++ [length (objs s)] ∧
    length (objs s') = S (length (objs s)) ∧
    region_ok (length (objs s)) s' ∧
    (∀ rid, region_ok rid s → region_ok rid s') ∧
    canvas_fresh (canvas s') ∧
    extended_edges s' = extended_edges s ∧
    (∃ d', heap s' !! extended_edges s' = Some d' ∧ four_edges d' ∧
           margins_nonneg d') ∧
    (∀ it, item_ok (heap s) it → item_ok (heap s') it) ∧
    (∀ i it, cv_items (canvas s) !! i = Some it →
             cv_items (canvas s') !! i = Some it) ∧
    selected s' = selected s ∧ bindings s' = bindings s ∧
    cur_selected s' = cur_selected s ∧ _sel s' = _sel s ∧
    selected_data s' = selected_data s.
Proof.
  intros Hitem Hd Hfour Hd0 Hf.
  destruct (init_state item s d Hitem Hd Hfour Hd0)
    as (inp & frame & x & y & w & h & resolved & top & bottom & left & right &
        _ & _ & Hres & Hres0 & Hrun).
  eexists. split.
  { unfold construct_region. erewrite bind_returns; [| exact Hrun ].
    reflexivity. }
  assert (Hold : ∀ i it, cv_items (canvas s) !! i = Some it →
    <[cv_next (canvas s) + 1 :=
        {| it_x := x; it_y := y; it_image := (w, h); it_tags := [] |}]>
      (<[cv_next (canvas s) :=
           {| it_x := x - left; it_y := y - top;
              it_image := (left + w + right, top + h + bottom);
              it_tags := [] |}]> (cv_items (canvas s))) !! i = Some it).
  { intros i it Hi. pose proof (Hf i it Hi) as Hlt. simpl in Hlt.
    by rewrite !lookup_insert_ne by lia. }
  assert (Hfresh : map_Forall (λ i _, i < cv_next (canvas s) + 1 + 1)
    (<[cv_next (canvas s) + 1 :=
        {| it_x := x; it_y := y; it_image := (w, h); it_tags := [] |}]>
      (<[cv_next (canvas s) :=
           {| it_x := x - left; it_y := y - top;
              it_image := (left + w + right, top + h + bottom);
              it_tags := [] |}]> (cv_items (canvas s))))).
  { apply map_Forall_insert_2; [lia|].
    apply map_Forall_insert_2; [lia|].
    eapply map_Forall_impl; [exact Hf|]. simpl. intros. lia. }
  simpl.
  split; [done|]. split; [rewrite length_app; simpl; lia|].
  split.
  { eexists. split; [by apply list_lookup_middle|]. simpl.
    split; [rewrite lookup_insert_ne by lia; rewrite lookup_insert_eq; eauto|].
    split; [rewrite lookup_insert_eq; eauto|].
    split; [lia|].
    split; [rewrite lookup_insert_eq; eauto|].
    split; [|done].
    rewrite lookup_insert_ne by (intros ?%(inj pretty); lia).
    rewrite lookup_insert_eq. eauto. }
  split.
  { intros rid (r & Hr & [ie He] & [it Ht] & Hne & [o Ho] & [o' Ho'] & _).
    exists r. simpl.
    split; [by apply lookup_app_l_Some|].
    rewrite (Hold _ _ He), (Hold _ _ Ht).
    split; [eauto|]. split; [eauto|]. split; [done|].
    split.
    { destruct (decide (pretty (cv_next (canvas s)) = pretty (rg_e r)))
        as [->|]; [rewrite lookup_insert_eq; eauto|].
      rewrite lookup_insert_ne by done.
      destruct (decide (pretty (cv_next (canvas s) + 1) = pretty (rg_e r)))
        as [->|]; [rewrite lookup_insert_eq; eauto|].
      rewrite lookup_insert_ne by done. eauto. }
    split; [|done].
    destruct (decide (pretty (cv_next (canvas s)) = pretty (rg_t r)))
      as [->|]; [rewrite lookup_insert_eq; eauto|].
    rewrite lookup_insert_ne by done.
    destruct (decide (pretty (cv_next (canvas s) + 1) = pretty (rg_t r)))
      as [->|]; [rewrite lookup_insert_eq; eauto|].
    rewrite lookup_insert_ne by done. eauto. }
  split; [done|]. split; [done|].
  split.
  { destruct (decide (default (extended_edges s) (cfg_extendedEdges item) =
                      extended_edges s)) as [->|Hne].
    - exists resolved. by rewrite lookup_insert_eq.
    - exists d. by rewrite lookup_insert_ne. }
  split.
  { intros it0 (Hi & Hfr & Hmine). split; [done|]. split; [done|].
    destruct (cfg_extendedEdges it0) as [mine|]; [|done].
    destruct (decide (default (extended_edges s) (cfg_extendedEdges item) =
                      mine)) as [->|Hne].
    - rewrite lookup_insert_eq. eauto.
    - by rewrite lookup_insert_ne. }
  done.
Qed.

Lemma construct_regions_spec items :
  ∀ s,
    Forall (item_ok (heap s)) items →
    (∃ d, heap s !! extended_edges s = Some d ∧ four_edges d ∧
          margins_nonneg d) →
    canvas_fresh (canvas s) →
    ∃ s',
      for_each items construct_region s = (Returns tt, s') ∧
      regions s' = regions s ++ seq (length (objs s)) (length items) ∧
      (∀ rid, rid ∈ seq (length (objs s)) (length items) → region_ok rid s') ∧
      (∀ rid, region_ok rid s → region_ok rid s') ∧
      canvas_fresh (canvas s') ∧
      (∀ i it, cv_items (canvas s) !! i = Some it →
               cv_items (canvas s') !! i = Some it) ∧
      selected s' = selected s ∧ bindings s' = bindings s ∧
      cur_selected s' = cur_selected s ∧ _sel s' = _sel s ∧
      selected_data s' = selected_data s.
Proof.
  induction items as [|item items IH];
    intros s Hitems (d & Hd & Hfour & Hd0) Hf.
  - exists s. simpl. rewrite app_nil_r. repeat split; try done.
    intros rid H. by apply elem_of_nil in H.
  - apply Forall_cons in Hitems as [Hitem Hitems].
    destruct (construct_region_step item s d Hitem Hd Hfour Hd0 Hf)
      as (s1 & Hrun1 & Hreg1 & Hlen1 & Hnew & Hkeep1 & Hf1 & Hee & Hd1 &
          Hok1 & Hitems1 & Hsel1 & Hb1 & Hc1 & Hs1 & Ha1).
    destruct (IH s1) as (s' & Hrun & Hreg & Hall & Hkeep & Hf' & Hitems' &
                         Hsel & Hb & Hc & Hs & Ha); [|done|done|].
    { eapply Forall_impl; [exact Hitems|]. intros it. apply Hok1. }
    exists s'. split.
    { simpl. erewrite bind_returns; [| exact Hrun1 ]. exact Hrun. }
    split.
    { rewrite Hreg, Hreg1, Hlen1, <- app_assoc. reflexivity. }
    split.
    { intros rid Hrid. simpl in Hrid.
      apply elem_of_cons in Hrid as [->|Hrid].
      - by apply Hkeep.
      - apply Hall. by rewrite Hlen1. }
    split; [intros rid Hrid; by apply Hkeep, Hkeep1|].
    split; [done|].
    split; [intros i it Hi; by apply Hitems', Hitems1|].
    repeat split; congruence.
Qed.

Lemma initial_bindings_run s :
  bindings s = ∅ →
  (Representation.bind_method "<Button-1>" "select_region" false ;;
   Representation.bind_method "<Escape>" "deselect_region" false ;;
   Representation.bind_method "<ButtonRelease-1>" "drag_stop" false ;;
   Representation.bind_method "<B1-Motion>" "drag" false ;;
   for_each arrows (λ b,
     Representation.bind_method b "move_region" false ;;
     Representation.bind_method b "resize_region" true)) s =
    (Returns tt, set_bindings initial_bindings s).
Proof.
  intros Hb.
  unfold Representation.bind_method, getattr_handler, bind_event, arrows,
    for_each, bind, ret, modify.
  cbn [handler_attr]. simpl. rewrite Hb.
  match goal with
  | |- (_, set_bindings ?B _) = _ =>
      replace B with initial_bindings by (vm_compute; reflexivity)
  end.
  reflexivity.
Qed.

(** The two pads are items the constructor accepts. *)
Lemma stick_item_ok : item_ok pads_heap stick_item.
Proof.
  split; [simpl; eauto|]. split; [|exact I].
  exists [("x", 10); ("y", 10); ("width", 20); ("height", 20)], 20, 20.
  split_and!; [reflexivity | reflexivity | lia | reflexivity | lia
              | vm_compute; eauto | vm_compute; eauto].
Qed.

Lemma xy_item_ok : item_ok pads_heap xy_item.
Proof.
  split; [simpl; eauto|]. split.
  - exists [("x", 100); ("y", 100); ("width", 30); ("height", 30)], 30, 30.
    split_and!; [reflexivity | reflexivity | lia | reflexivity | lia
                | vm_compute; eauto | vm_compute; eauto].
  - exists [("top", 5)]. split; [vm_compute; reflexivity | margins_nonneg].
Qed.

(** X17.  When the background loads, the default margins name the four
    edges, every item has its keys and a frame of a width and height that
    are not negative, and no margin is negative, construction returns: it
    builds one region per item, in order, each of them well formed (so
    that moves and resizes apply to it); the background is item 1, tagged
    ["nodrag"]; nothing is selected, the anchor is the origin, and the
    bindings are exactly those of the constructor. *)
Theorem init_constructs_well_formed_regions
    items ms ee assets s key rest im d :
  dict_keys assets = key :: rest →
  (Representation.load_image key (dict_values ms)
     (with_attributes items ms ee assets s)).1 = Returns im →
  heap s !! ee = Some d →
  four_edges d →
  margins_nonneg d →
  Forall (item_ok (heap s)) items →
  ∃ s',
    Representation.init items ms ee assets s = (Returns tt, s') ∧
    regions s' = seq (length (objs s)) (length items) ∧
    (∀ rid, rid ∈ regions s' → region_ok rid s') ∧
    canvas_fresh (canvas s') ∧
    cv_items (canvas s') !! 1 =
      Some {| it_x := 0; it_y := 0; it_image := im;
              it_tags := ["nodrag"] |} ∧
    selected s' = None ∧ _sel s' = None ∧ selected_data s' = (0, 0) ∧
    bindings s' = initial_bindings ∧
    cur_selected s' = cur_selected s.
Proof.
  intros Hkeys Hload Hd Hfour Hd0 Hitems.
  pose proof (load_image_state key (dict_values ms)
                (with_attributes items ms ee assets s)) as Hstate.
  destruct (Representation.load_image key (dict_values ms)
              (with_attributes items ms ee assets s)) as [o s0] eqn:Hrun.
  simpl in Hload, Hstate. subst o s0.
  destruct (construct_regions_spec items
              (with_background im (with_attributes items ms ee assets s)))
    as (s1 & Hloop & Hreg & Hall & _ & Hf & Hbg & Hsel & Hb & Hc & Hs & Ha).
  { exact Hitems. }
  { exists d. split; [exact Hd|]. split; [exact Hfour | exact Hd0]. }
  { unfold canvas_fresh. simpl. apply map_Forall_insert_2; [lia|].
    apply map_Forall_empty. }
  eexists. split.
  { unfold Representation.init.
    do 11 (erewrite bind_returns; [| reflexivity ]).
    rewrite Hkeys.
    erewrite bind_returns; [| reflexivity ].
    erewrite bind_returns; cycle 1.
    { unfold try_except. fold (with_attributes items ms ee assets s).
      rewrite Hrun. reflexivity. }
    erewrite bind_returns; [| reflexivity ].
    erewrite bind_returns; [| reflexivity ].
    erewrite bind_returns; [| exact Hloop ].
    apply initial_bindings_run. rewrite Hb. reflexivity. }
  cbn [set_bindings regions canvas selected _sel selected_data bindings
       cur_selected].
  split; [rewrite Hreg; reflexivity|].
  split.
  { intros rid Hrid. rewrite Hreg in Hrid. simpl in Hrid.
    destruct (Hall rid Hrid) as (r & Hr & He & Ht & Hne & Hie & Hit & Hfr).
    exists r. done. }
  split; [exact Hf|].
  split; [apply Hbg; reflexivity|].
  rewrite Hsel, Hs, Ha, Hc. done.
Qed.

Lemma init_constructs_well_formed_regions_witness :
  ∃ s',
    Representation.init [stick_item; xy_item] scenario_size 0%nat
      [("small", "skin.png")] (boot scenario_master pads_heap) =
      (Returns tt, s') ∧
    regions s' = [0%nat; 1%nat] ∧
    region_ok 0 s' ∧ region_ok 1 s'.
Proof.
  destruct (init_constructs_well_formed_regions [stick_item; xy_item]
    scenario_size 0%nat [("small", "skin.png")]
    (boot scenario_master pads_heap) "small" [] (400, 300)
    [("top", 2); ("bottom", 2); ("left", 2); ("right", 2)])
    as (s' & Hrun & Hreg & Hall & _).
  - reflexivity.
  - vm_compute. reflexivity.
  - vm_compute. reflexivity.
  - four_edges.
  - margins_nonneg.
  - constructor; [exact stick_item_ok|].
    constructor; [exact xy_item_ok|]. constructor.
  - exists s'. split; [exact Hrun|]. split; [exact Hreg|].
    split; apply Hall; rewrite Hreg.
    + apply elem_of_cons. by left.
    + apply elem_of_cons. right. apply elem_of_cons. by left.
Defined.


(** ** Items the constructor refuses *)

Lemma for_each_app {A} (l1 l2 : list A) (f : A → M unit) s :
  for_each (l1 ++ l2) f s = (for_each l1 f ;; for_each l2 f) s.
Proof.
  revert s. induction l1 as [|x l1 IH]; intros s; simpl.
  - reflexivity.
  - unfold bind. destruct (f x s) as [[[]|e] s1]; [|done].
    rewrite IH. reflexivity.
Qed.

(** X18.  The regions are constructed outside the [try]: when the
    constructor of a region raises, after the regions before it were
    built, construction of the editor raises that same exception, a
    [KeyError] for a missing key included, and not [SystemExit]; the
    state is as that constructor left it and no handler is bound. *)
Theorem region_failure_is_not_converted
    pre item post ms ee assets s key rest im sk e s' :
  let items := pre ++ item :: post in
  dict_keys assets = key :: rest →
  (Representation.load_image key (dict_values ms)
     (with_attributes items ms ee assets s)).1 = Returns im →
  for_each pre construct_region
    (with_background im (with_attributes items ms ee assets s)) =
    (Returns tt, sk) →
  Region.init item sk = (Raises e, s') →
  Representation.init items ms ee assets s = (Raises e, s').
Proof.
  intros items Hkeys Hload Hpre Hfail.
  pose proof (load_image_state key (dict_values ms)
                (with_attributes items ms ee assets s)) as Hstate.
  destruct (Representation.load_image key (dict_values ms)
              (with_attributes items ms ee assets s)) as [o s0] eqn:Hrun.
  simpl in Hload, Hstate. subst o s0.
  unfold Representation.init.
  do 11 (erewrite bind_returns; [| reflexivity ]).
  rewrite Hkeys.
  erewrite bind_returns; [| reflexivity ].
  erewrite bind_returns; cycle 1.
  { unfold try_except. fold (with_attributes items ms ee assets s).
    rewrite Hrun. reflexivity. }
  erewrite bind_returns; [| reflexivity ].
  erewrite bind_returns; [| reflexivity ].
  apply bind_raises.
  change (for_each items construct_region
            (with_background im (with_attributes items ms ee assets s)) =
          (Raises e, s')).
  unfold items at 1. rewrite for_each_app.
  erewrite bind_returns; [| exact Hpre ].
  simpl. apply bind_raises. unfold construct_region.
  by apply bind_raises.
Qed.

Lemma region_failure_is_not_converted_witness :
  ∃ s',
    Representation.init [scenario_item; broken_item] scenario_size 0%nat
      [("small", "skin.png")] (boot scenario_master scenario_heap) =
      (Raises (KeyError "inputs"), s') ∧
    regions s' = [0%nat] ∧ bindings s' = ∅.
Proof.
  eexists. split.
  - eapply (region_failure_is_not_converted [scenario_item] broken_item []
      scenario_size 0%nat [("small", "skin.png")]
      (boot scenario_master scenario_heap) "small" [] (400, 300)).
    + reflexivity.
    + vm_compute. reflexivity.
    + vm_compute. reflexivity.
    + vm_compute. reflexivity.
  - split; vm_compute; reflexivity.
Defined.

(** X19.  From an item that lacks [inputs], [frame] or one of the four
    keys of its frame, the constructor of a region raises [KeyError]
    before it changes anything: no canvas item, no registry entry, no
    change to a dictionary of margins. *)
Theorem region_init_missing_key item s :
  cfg_inputs item = None ∨ cfg_frame item = None ∨
  (∃ frame k, cfg_frame item = Some frame ∧
              k ∈ ["width"; "height"; "x"; "y"] ∧ dict_get k frame = None) →
  ∃ k, Region.init item s = (Raises (KeyError k), s).
Proof.
  intros Hmissing. unfold Region.init.
  destruct (cfg_inputs item) as [inp|]; cycle 1.
  { exists "inputs". reflexivity. }
  erewrite bind_returns; [| reflexivity ].
  destruct (cfg_frame item) as [frame|] eqn:Hframe; cycle 1.
  { exists "frame". reflexivity. }
  erewrite bind_returns; [| reflexivity ].
  destruct Hmissing as [?|[?|(frame' & k & [= <-] & Hk & Hnone)]]; try done.
  destruct (dict_get "width" frame) as [w|] eqn:Hw; cycle 1.
  { exists "width". reflexivity. }
  erewrite bind_returns; [| reflexivity ].
  destruct (dict_get "height" frame) as [h|] eqn:Hh; cycle 1.
  { exists "height". reflexivity. }
  erewrite bind_returns; [| reflexivity ].
  destruct (dict_get "x" frame) as [x|] eqn:Hx; cycle 1.
  { exists "x". reflexivity. }
  erewrite bind_returns; [| reflexivity ].
  destruct (dict_get "y" frame) as [y|] eqn:Hy; cycle 1.
  { exists "y". reflexivity. }
  exfalso.
  repeat (apply elem_of_cons in Hk as [->|Hk]; [congruence|]).
  by apply elem_of_nil in Hk.
Qed.

Lemma region_init_missing_key_witness :
  cfg_inputs broken_item = None ∧
  Region.init broken_item scenario = (Raises (KeyError "inputs"), scenario).
Proof.
  split; [reflexivity|].
  destruct (region_init_missing_key broken_item scenario) as [k Hk];
    [by left|].
  rewrite Hk. f_equal.
  assert (Hrun : (Region.init broken_item scenario).1 =
                 Raises (KeyError "inputs")) by (vm_compute; reflexivity).
  rewrite Hk in Hrun. exact Hrun.
Defined.

(** ** Keyboard moves *)



(** ** The registry after construction *)

Lemma construct_region_registers item s d :
  item_ok (heap s) item →
  heap s !! extended_edges s = Some d →
  four_edges d →
  margins_nonneg d →
  canvas_fresh (canvas s) →
  ∃ s',
    construct_region item s = (Returns tt, s') ∧
    registered (length (objs s)) s' ∧
    (∀ rid, region_ok rid s → registered rid s → registered rid s').
Proof.
  intros Hitem Hd Hfour Hd0 Hf.
  destruct (init_state item s d Hitem Hd Hfour Hd0)
    as (inp & frame & x & y & w & h & resolved & top & bottom & left & right &
        _ & _ & Hres & _ & Hrun).
  eexists. split.
  { unfold construct_region. erewrite bind_returns; [| exact Hrun ].
    reflexivity. }
  simpl. split.
  - eexists. split; [by apply list_lookup_middle|]. simpl. split.
    + apply lookup_insert_eq.
    + rewrite lookup_insert_ne by (intros ?%(inj pretty); lia).
      apply lookup_insert_eq.
  - intros rid Hok (r & Hr & He & Ht).
    destruct (region_ok_fresh_ids rid s r Hok Hr) as (Hlt_e & Hlt_t & _).
    exists r. simpl. split; [by apply lookup_app_l_Some|].
    rewrite !lookup_insert_ne by (intros ?%(inj pretty); lia). done.
Qed.

Lemma construct_regions_registered items :
  ∀ s,
    Forall (item_ok (heap s)) items →
    (∃ d, heap s !! extended_edges s = Some d ∧ four_edges d ∧
          margins_nonneg d) →
    canvas_fresh (canvas s) →
    ∃ s',
      for_each items construct_region s = (Returns tt, s') ∧
      (∀ rid, rid ∈ seq (length (objs s)) (length items) →
              registered rid s') ∧
      (∀ rid, region_ok rid s → registered rid s → registered rid s').
Proof.
  induction items as [|item items IH];
    intros s Hitems (d & Hd & Hfour & Hd0) Hf.
  - exists s. simpl. repeat split; try done.
    intros rid H. by apply elem_of_nil in H.
  - apply Forall_cons in Hitems as [Hitem Hitems].
    destruct (construct_region_step item s d Hitem Hd Hfour Hd0 Hf)
      as (s1 & Hrun1 & _ & Hlen1 & Hnew & Hkeep1 & Hf1 & _ & Hd1 & Hok1 & _).
    destruct (construct_region_registers item s d Hitem Hd Hfour Hd0 Hf)
      as (s1' & Hrun1' & Hnewreg & Hkeepreg).
    rewrite Hrun1 in Hrun1'. injection Hrun1' as <-.
    destruct (IH s1) as (s' & Hrun & Hall & Hkeep); [|done|done|].
    { eapply Forall_impl; [exact Hitems|]. intros it. apply Hok1. }
    exists s'. split.
    { simpl. erewrite bind_returns; [| exact Hrun1 ]. exact Hrun. }
    split.
    + intros rid Hrid. simpl in Hrid.
      apply elem_of_cons in Hrid as [->|Hrid].
      * by apply Hkeep.
      * apply Hall. by rewrite Hlen1.
    + intros rid Hok Hreg. apply Hkeep; [by apply Hkeep1|].
      by apply Hkeepreg.
Qed.

Lemma init_run items ms ee assets s key rest im s1 :
  dict_keys assets = key :: rest →
  (Representation.load_image key (dict_values ms)
     (with_attributes items ms ee assets s)).1 = Returns im →
  for_each items construct_region
    (with_background im (with_attributes items ms ee assets s)) =
    (Returns tt, s1) →
  bindings s1 = ∅ →
  Representation.init items ms ee assets s =
    (Returns tt, set_bindings initial_bindings s1).
Proof.
  intros Hkeys Hload Hloop Hb.
  pose proof (load_image_state key (dict_values ms)
                (with_attributes items ms ee assets s)) as Hstate.
  destruct (Representation.load_image key (dict_values ms)
              (with_attributes items ms ee assets s)) as [o s0] eqn:Hrun.
  simpl in Hload, Hstate. subst o s0.
  unfold Representation.init.
  do 11 (erewrite bind_returns; [| reflexivity ]).
  rewrite Hkeys.
  erewrite bind_returns; [| reflexivity ].
  erewrite bind_returns; cycle 1.
  { unfold try_except. fold (with_attributes items ms ee assets s).
    rewrite Hrun. reflexivity. }
  erewrite bind_returns; [| reflexivity ].
  erewrite bind_returns; [| reflexivity ].
  erewrite bind_returns; [| exact Hloop ].
  by apply initial_bindings_run.
Qed.

(** X21.  When the background loads, the default margins name the four
    edges, every item has its keys and a frame of a width and height that
    are not negative, and no margin is negative, construction returns,
    and both rectangles of every region are then in the registry under
    that region: hitting either one resolves to the same [Region]
    object. *)
Theorem init_registers_both_rectangles
    items ms ee assets s key rest im d :
  dict_keys assets = key :: rest →
  (Representation.load_image key (dict_values ms)
     (with_attributes items ms ee assets s)).1 = Returns im →
  heap s !! ee = Some d →
  four_edges d →
  margins_nonneg d →
  Forall (item_ok (heap s)) items →
  ∃ s',
    Representation.init items ms ee assets s = (Returns tt, s') ∧
    ∀ rid, rid ∈ regions s' → registered rid s'.
Proof.
  intros Hkeys Hload Hd Hfour Hnonneg Hitems.
  set (s0 := with_background im (with_attributes items ms ee assets s)).
  assert (Hf0 : canvas_fresh (canvas s0)).
  { unfold canvas_fresh. simpl. apply map_Forall_insert_2; [lia|].
    apply map_Forall_empty. }
  assert (Hd0 : ∃ d0, heap s0 !! extended_edges s0 = Some d0 ∧
                      four_edges d0 ∧ margins_nonneg d0)
    by (exists d; split; [exact Hd|]; split; [exact Hfour | exact Hnonneg]).
  destruct (construct_regions_spec items s0 Hitems Hd0 Hf0)
    as (s1 & Hloop & Hreg & _ & _ & _ & _ & _ & Hb & _).
  destruct (construct_regions_registered items s0 Hitems Hd0 Hf0)
    as (s1' & Hloop' & Hall & _).
  rewrite Hloop in Hloop'. injection Hloop' as <-.
  exists (set_bindings initial_bindings s1). split.
  - by apply (init_run items ms ee assets s key rest im s1).
  - intros rid Hrid. cbn [set_bindings regions] in Hrid.
    rewrite Hreg in Hrid. simpl in Hrid.
    destruct (Hall rid Hrid) as (r & Hr & He & Ht).
    exists r. done.
Qed.

Lemma init_registers_both_rectangles_witness :
  ∃ s',
    Representation.init [stick_item; xy_item] scenario_size 0%nat
      [("small", "skin.png")] (boot scenario_master pads_heap) =
      (Returns tt, s') ∧
    registered 0 s' ∧ registered 1 s'.
Proof.
  destruct (init_registers_both_rectangles [stick_item; xy_item]
    scenario_size 0%nat [("small", "skin.png")]
    (boot scenario_master pads_heap) "small" [] (400, 300)
    [("top", 2); ("bottom", 2); ("left", 2); ("right", 2)])
    as (s' & Hrun & Hall).
  - reflexivity.
  - vm_compute. reflexivity.
  - vm_compute. reflexivity.
  - four_edges.
  - margins_nonneg.
  - constructor; [exact stick_item_ok|].
    constructor; [exact xy_item_ok|]. constructor.
  - exists s'. split; [exact Hrun|].
    assert (Hreg : regions s' = [0%nat; 1%nat]).
    { assert (H : (Representation.init [stick_item; xy_item] scenario_size
                     0%nat [("small", "skin.png")]
                     (boot scenario_master pads_heap)).2 = s')
        by (by rewrite Hrun).
      rewrite <- H. vm_compute. reflexivity. }
    split; apply Hall; rewrite Hreg.
    + apply elem_of_cons. by left.
    + apply elem_of_cons. right. apply elem_of_cons. by left.
Defined.
